(** * mymart: address book, product and order request handlers

    A shallow embedding of the request handlers of the shop
    ([app/api/.../route.ts]) and of the [UserSchema.pre('save')] hook of
    [models/User.ts], with the properties of the default-address logic,
    of the address validation, and of the product and order handlers.

    Conventions of the embedding.
    - A JavaScript string is the list of its UTF-16 code units.
    - An [undefined] (omitted) request field is [None].
    - A handler is a function of the session, of the document that
      [findOne] returns, and of the parsed request body; it returns the
      response together with the document as the store holds it afterwards.
      Connecting to the store and parsing the body are taken to succeed.
    - A JavaScript exception is a value of [Exn]; [try]/[catch] is a
      [match] on the sum. *)

From Stdlib Require Import ZArith QArith String Ascii List Bool Lia.
From stdpp Require Import base list.
Import ListNotations.

Local Open Scope Z_scope.
Local Open Scope list_scope.

(** ** JavaScript strings *)

Definition jsstring := list N.

Definition js (s : string) : jsstring :=
  List.map N_of_ascii (list_ascii_of_string s).

(** ECMAScript [WhiteSpace] and [LineTerminator] code points, the ones
    [String.prototype.trim] strips. *)
Definition isWhiteSpace (c : N) : bool :=
  ((c =? 0x09) || (c =? 0x0A) || (c =? 0x0B) || (c =? 0x0C) || (c =? 0x0D)
   || (c =? 0x20) || (c =? 0xA0) || (c =? 0x1680)
   || ((0x2000 <=? c) && (c <=? 0x200A))
   || (c =? 0x2028) || (c =? 0x2029) || (c =? 0x202F) || (c =? 0x205F)
   || (c =? 0x3000) || (c =? 0xFEFF))%N.

Fixpoint trimStart (s : jsstring) : jsstring :=
  match s with
  | [] => []
  | c :: r => if isWhiteSpace c then trimStart r else s
  end.

Definition trimEnd (s : jsstring) : jsstring := rev (trimStart (rev s)).

Definition trim (s : jsstring) : jsstring := trimEnd (trimStart s).

(** [!s] on a string: only the empty string is falsy. *)
Definition falsy (s : jsstring) : bool :=
  match s with [] => true | _ => false end.

(** [\d] *)
Definition isDigit (c : N) : bool := ((0x30 <=? c) && (c <=? 0x39))%N.

(** [/^\d+$/.test(s)] *)
Definition allDigits (s : jsstring) : bool :=
  negb (falsy s) && forallb isDigit s.

Definition jsstring_eqb (a b : jsstring) : bool :=
  bool_decide (a = b).

(** ** Exceptions *)

Inductive Exn :=
| TypeError (message : string)
| ValidationError (message : string)
| MongoServerError (code : Z) (message : string).

Definition messageOf (e : Exn) : string :=
  match e with
  | TypeError m => m
  | ValidationError m => m
  | MongoServerError _ m => m
  end.

Definition Throws (A : Type) : Type := Exn + A.

Definition ret {A} (a : A) : Throws A := inr a.
Definition throw {A} (e : Exn) : Throws A := inl e.
Definition bind {A B} (m : Throws A) (k : A -> Throws B) : Throws B :=
  match m with inl e => inl e | inr a => k a end.

Notation "'let!' x ':=' m 'in' k" := (bind m (fun x => k))
  (at level 10, x name, m at level 100, k at level 200).

(** [s!.trim()]: a method call on [undefined] throws. *)
Definition trimBang (s : option jsstring) : Throws jsstring :=
  match s with
  | None =>
      throw (TypeError "Cannot read properties of undefined (reading 'trim')")
  | Some s => ret (trim s)
  end.

(** ** Addresses ([interface UserAddress], [AddressSchema]) *)

Record UserAddress := mkAddress {
  _id : jsstring;
  street : jsstring;
  city : jsstring;
  state : jsstring;
  zipCode : jsstring;
  country : jsstring;
  isDefault : bool;
  label : jsstring;
  phone : option jsstring
}.

Definition set_isDefault (b : bool) (a : UserAddress) : UserAddress :=
  mkAddress (_id a) (street a) (city a) (state a) (zipCode a) (country a)
            b (label a) (phone a).

Definition set_street (v : jsstring) (a : UserAddress) : UserAddress :=
  mkAddress (_id a) v (city a) (state a) (zipCode a) (country a)
            (isDefault a) (label a) (phone a).
Definition set_city (v : jsstring) (a : UserAddress) : UserAddress :=
  mkAddress (_id a) (street a) v (state a) (zipCode a) (country a)
            (isDefault a) (label a) (phone a).
Definition set_state (v : jsstring) (a : UserAddress) : UserAddress :=
  mkAddress (_id a) (street a) (city a) v (zipCode a) (country a)
            (isDefault a) (label a) (phone a).
Definition set_zipCode (v : jsstring) (a : UserAddress) : UserAddress :=
  mkAddress (_id a) (street a) (city a) (state a) v (country a)
            (isDefault a) (label a) (phone a).
Definition set_country (v : jsstring) (a : UserAddress) : UserAddress :=
  mkAddress (_id a) (street a) (city a) (state a) (zipCode a) v
            (isDefault a) (label a) (phone a).
Definition set_label (v : jsstring) (a : UserAddress) : UserAddress :=
  mkAddress (_id a) (street a) (city a) (state a) (zipCode a) (country a)
            (isDefault a) v (phone a).
Definition set_phone (v : jsstring) (a : UserAddress) : UserAddress :=
  mkAddress (_id a) (street a) (city a) (state a) (zipCode a) (country a)
            (isDefault a) (label a) (Some v).

(** [Partial<UserAddress>], as [validateAddressData] reads it. *)
Module Partial.
Record t := mk {
  street : option jsstring;
  city : option jsstring;
  state : option jsstring;
  zipCode : option jsstring;
  country : option jsstring;
  label : option jsstring;
  phone : option jsstring
}.
End Partial.

(** [interface AddressRequestBody] *)
Module Req.
Record t := mk {
  addressId : option jsstring;
  street : option jsstring;
  city : option jsstring;
  state : option jsstring;
  zipCode : option jsstring;
  country : option jsstring;
  isDefault : option bool;
  label : option jsstring;
  phone : option jsstring
}.
End Req.

(** ** [validateAddressData] *)

(** [!v || !v.trim()] *)
Definition blank (v : jsstring) : bool := falsy v || falsy (trim v).

Definition push {A} (l : list A) (x : A) : list A := l ++ [x].

(** [if (field !== undefined && (!field || !field.trim())) errors.push(msg)] *)
Definition requireField (field : option jsstring) (msg : string)
    (errors : list string) : list string :=
  match field with
  | Some v => if blank v then push errors msg else errors
  | None => errors
  end.

Definition labels : list jsstring := [js "home"; js "work"; js "other"].

Definition includes (l : list jsstring) (x : jsstring) : bool :=
  existsb (jsstring_eqb x) l.

(** The block on [data.zipCode]. *)
Definition requireZip (field : option jsstring) (errors : list string)
    : list string :=
  match field with
  | Some z =>
      if blank z then push errors "ZIP code is required"%string
      else if negb (allDigits (trim z))
           then push errors "ZIP code must contain only numbers"%string
           else errors
  | None => errors
  end.

(** The block on [data.label]. *)
Definition requireLabel (field : option jsstring) (errors : list string)
    : list string :=
  match field with
  | Some l =>
      if negb (includes labels l)
      then push errors "Label must be one of: home, work, other"%string
      else errors
  | None => errors
  end.

Definition validateAddressData (data : Partial.t) : list string :=
  let errors := [] in
  let errors := requireField (Partial.street data) "Street is required" errors in
  let errors := requireField (Partial.city data) "City is required" errors in
  let errors := requireField (Partial.state data) "State is required" errors in
  let errors := requireZip (Partial.zipCode data) errors in
  let errors := requireField (Partial.country data) "Country is required" errors in
  let errors := requireLabel (Partial.label data) errors in
  errors.

(** [errors.join(', ')] *)
Definition join (errors : list string) : string := String.concat ", " errors.

(** ** Responses *)

Inductive Response :=
| Success (status : Z) (message : string) (addresses : list UserAddress)
| Failure (status : Z) (error : string).

Definition statusOf (r : Response) : Z :=
  match r with Success s _ _ => s | Failure s _ => s end.

(** The error taxonomy of the specification, read off the status code. *)
Inductive ErrorKind :=
| Unauthorized | NotFound | ValidationFailure | Conflict | InternalFailure.

Definition kindOf (r : Response) : option ErrorKind :=
  match r with
  | Success _ _ _ => None
  | Failure s _ =>
      if s =? 401 then Some Unauthorized
      else if s =? 404 then Some NotFound
      else if s =? 400 then Some ValidationFailure
      else if s =? 409 then Some Conflict
      else if s =? 500 then Some InternalFailure
      else None
  end.

(** ** Array primitives *)

Fixpoint findIndexFrom {A} (p : A -> bool) (l : list A) (i : Z) : Z :=
  match l with
  | [] => -1
  | x :: r => if p x then i else findIndexFrom p r (i + 1)
  end.

(** [l.findIndex(p)]: the first index that satisfies [p], or [-1]. *)
Definition findIndex {A} (p : A -> bool) (l : list A) : Z :=
  findIndexFrom p l 0.

(** [l.some((x, idx) => p idx x)] *)
Definition some {A} (p : nat -> A -> bool) (l : list A) : bool :=
  existsb (fun b : bool => b) (imap p l).

(** [l.splice(i, 1)] *)
Definition splice1 {A} (i : nat) (l : list A) : list A := delete i l.

(** ** [UserSchema.pre('save')]: the single-default pass *)

(** The [forEach] of the hook assigns in place, and its callback reads
    [this.addresses.findIndex] again at every index, that is on the array as
    the earlier iterations left it. [n] iterations remain, the next one is at
    [index]. *)
Fixpoint resetLoop (n : nat) (index : nat) (addresses : list UserAddress)
    : list UserAddress :=
  match n with
  | O => addresses
  | S n' =>
      let first := findIndex isDefault addresses in
      resetLoop n' (S index)
        (alter (set_isDefault (Z.of_nat index =? first)) index addresses)
  end.

(** [modified] is [this.isModified('addresses')], the answer of Mongoose's
    change tracking. *)
Definition preSave (modified : bool) (addresses : list UserAddress)
    : list UserAddress :=
  if modified then
    let defaultAddresses := List.filter isDefault addresses in
    if (1 <? length defaultAddresses)%nat
    then resetLoop (length addresses) 0 addresses
    else addresses
  else addresses.

(** [user.save()]: the hooks run, then the document is written. The schema
    validators, which require the trimmed street, city, state, zip code and
    country to be non-empty, repeat what the handlers check beforehand. *)
Definition save (modified : bool) (addresses : list UserAddress)
    : list UserAddress :=
  preSave modified addresses.

(** [transformAddresses]: identifiers are already held in their string
    form. *)
Definition transformAddresses (addresses : list UserAddress)
    : list UserAddress :=
  (fun addr => addr) <$> addresses.

(** ** The address handlers *)

Definition Doc := option (list UserAddress).

(** [!session?.user?.email] *)
Definition noSession (session : option jsstring) : bool :=
  match session with
  | None => true
  | Some email => falsy email
  end.

(** [error.message || 'Internal server error'] *)
Definition messageOr (e : Exn) : string :=
  match messageOf e with
  | EmptyString => "Internal server error"
  | m => m
  end.

(** The [catch] block of the address [POST] and [PUT]. *)
Definition catchValidation (e : Exn) : Response :=
  match e with
  | ValidationError m => Failure 400 m
  | _ => Failure 500 (messageOr e)
  end.

(** The [catch] block of the address [DELETE]. *)
Definition catchAll (e : Exn) : Response := Failure 500 (messageOr e).

Definition nonEmpty {A} (l : list A) : bool := (0 <? length l)%nat.

(** The default-address block of [POST], up to the [push]. *)
Definition pushAddress (newAddress : UserAddress)
    (addresses : list UserAddress) : list UserAddress :=
  let addresses :=
    if isDefault newAddress && nonEmpty addresses
    then set_isDefault false <$> addresses
    else addresses in
  let newAddress :=
    if (length addresses =? 0)%nat
    then set_isDefault true newAddress
    else newAddress in
  push addresses newAddress.

(** POST - add new address. [newId] is the [_id] that the store gives the
    pushed sub-document. *)
Definition POST_try (session : option jsstring) (user : Doc) (body : Req.t)
    (newId : jsstring) (modified : bool) : Throws (Response * Doc) :=
  if noSession session then ret (Failure 401 "Unauthorized", user) else
  let street := Req.street body in
  let city := Req.city body in
  let state := Req.state body in
  let zipCode := Req.zipCode body in
  let country := default (js "Bangladesh") (Req.country body) in
  let isDefault_ := default false (Req.isDefault body) in
  let label := default (js "home") (Req.label body) in
  let phone := default (js "") (Req.phone body) in
  let validationErrors :=
    validateAddressData
      (Partial.mk street city state zipCode (Some country) (Some label) None) in
  if nonEmpty validationErrors
  then ret (Failure 400 (join validationErrors), user) else
  match user with
  | None => ret (Failure 404 "User not found", user)
  | Some addresses =>
      let! street' := trimBang street in
      let! city' := trimBang city in
      let! state' := trimBang state in
      let! zipCode' := trimBang zipCode in
      let newAddress :=
        mkAddress newId street' city' state' zipCode' (trim country)
                  isDefault_ label (Some (trim phone)) in
      let addresses := pushAddress newAddress addresses in
      let addresses := save modified addresses in
      ret (Success 201 "Address added successfully"
             (transformAddresses addresses), Some addresses)
  end.

Definition POST (session : option jsstring) (user : Doc) (body : Req.t)
    (newId : jsstring) (modified : bool) : Response * Doc :=
  match POST_try session user body newId modified with
  | inr r => r
  | inl e => (catchValidation e, user)
  end.

(** [if (field !== undefined) user.addresses[i].field = v] *)
Definition assign {V} (field : option V)
    (set : V -> UserAddress -> UserAddress) (i : nat)
    (addresses : list UserAddress) : list UserAddress :=
  match field with
  | Some v => alter (set v) i addresses
  | None => addresses
  end.

(** "Update address fields": one assignment for each field present in the
    body. *)
Definition assignFields (body : Req.t) (i : nat)
    (addresses : list UserAddress) : list UserAddress :=
  let addresses := assign (Req.street body) (fun v => set_street (trim v)) i addresses in
  let addresses := assign (Req.city body) (fun v => set_city (trim v)) i addresses in
  let addresses := assign (Req.state body) (fun v => set_state (trim v)) i addresses in
  let addresses := assign (Req.zipCode body) (fun v => set_zipCode (trim v)) i addresses in
  let addresses := assign (Req.country body) (fun v => set_country (trim v)) i addresses in
  let addresses := assign (Req.label body) set_label i addresses in
  let addresses := assign (Req.phone body) (fun v => set_phone (trim v)) i addresses in
  addresses.

(** [some((addr, idx) => idx !== addressIndex && addr.isDefault)] *)
Definition otherIsDefault (i : nat) (addresses : list UserAddress) : bool :=
  some (fun idx addr => negb (idx =? i)%nat && isDefault addr) addresses.

(** [forEach((addr, idx) => { if (idx !== addressIndex) addr.isDefault = false })] *)
Definition clearOthers (i : nat) (addresses : list UserAddress)
    : list UserAddress :=
  imap (fun idx addr =>
          if negb (idx =? i)%nat then set_isDefault false addr else addr)
       addresses.

(** The first statement of "Handle default address change". *)
Definition clearStep (isDefault : option bool) (i : nat)
    (addresses : list UserAddress) : list UserAddress :=
  match isDefault with
  | Some d =>
      if d && otherIsDefault i addresses
      then clearOthers i addresses
      else addresses
  | None => addresses
  end.

(** Its second statement. *)
Definition setStep (isDefault : option bool) (i : nat)
    (addresses : list UserAddress) : list UserAddress :=
  match isDefault with
  | Some d => alter (set_isDefault d) i addresses
  | None => addresses
  end.

(** The [splice] of [DELETE] and the promotion that follows it. *)
Definition spliceAddress (wasDefault : bool) (i : nat)
    (addresses : list UserAddress) : list UserAddress :=
  let addresses := splice1 i addresses in
  if wasDefault && nonEmpty addresses
  then alter (set_isDefault true) 0%nat addresses
  else addresses.

Section AddressRoutes.

(** [mongoose.Types.ObjectId.isValid], of the driver. *)
Variable isValid : jsstring -> bool.

(** The checks on the address identifier and the lookup shared by [PUT]
    and [DELETE]: either the response that ends the request, or the list
    and the index found. *)
Definition locate (session : option jsstring) (user : Doc)
    (addressId : option jsstring) : Response + (list UserAddress * nat) :=
  if noSession session then inl (Failure 401 "Unauthorized") else
  match addressId with
  | None => inl (Failure 400 "Address ID is required")
  | Some id =>
      if falsy id then inl (Failure 400 "Address ID is required")
      else if negb (isValid id)
      then inl (Failure 400 "Invalid address ID format")
      else
        match user with
        | None => inl (Failure 404 "User not found")
        | Some addresses =>
            let addressIndex :=
              findIndex (fun addr => jsstring_eqb (_id addr) id) addresses in
            if addressIndex =? -1
            then inl (Failure 404 "Address not found")
            else inr (addresses, Z.to_nat addressIndex)
        end
  end.

(** PUT - update address. *)
Definition PUT_try (session : option jsstring) (user : Doc) (body : Req.t)
    (modified : bool) : Throws (Response * Doc) :=
  match locate session user (Req.addressId body) with
  | inl response => ret (response, user)
  | inr (addresses, addressIndex) =>
      let updateData :=
        Partial.mk (Req.street body) (Req.city body) (Req.state body)
                   (Req.zipCode body) (Req.country body) (Req.label body)
                   (Req.phone body) in
      let validationErrors := validateAddressData updateData in
      if nonEmpty validationErrors
      then ret (Failure 400 (join validationErrors), user) else
      let addresses := assignFields body addressIndex addresses in
      let addresses := clearStep (Req.isDefault body) addressIndex addresses in
      let addresses := setStep (Req.isDefault body) addressIndex addresses in
      let addresses := save modified addresses in
      ret (Success 200 "Address updated successfully"
             (transformAddresses addresses), Some addresses)
  end.

Definition PUT (session : option jsstring) (user : Doc) (body : Req.t)
    (modified : bool) : Response * Doc :=
  match PUT_try session user body modified with
  | inr r => r
  | inl e => (catchValidation e, user)
  end.

(** DELETE - remove address. [addressId] is [searchParams.get('id')]. *)
Definition DELETE_try (session : option jsstring) (user : Doc)
    (addressId : option jsstring) (modified : bool)
    : Throws (Response * Doc) :=
  match locate session user addressId with
  | inl response => ret (response, user)
  | inr (addresses, addressIndex) =>
      let! target :=
        match addresses !! addressIndex with
        | Some addr => ret addr
        | None =>
            throw (TypeError
              "Cannot read properties of undefined (reading 'isDefault')")
        end in
      let wasDefault := isDefault target in
      let addresses := spliceAddress wasDefault addressIndex addresses in
      let addresses := save modified addresses in
      ret (Success 200 "Address deleted successfully"
             (transformAddresses addresses), Some addresses)
  end.

Definition DELETE (session : option jsstring) (user : Doc)
    (addressId : option jsstring) (modified : bool) : Response * Doc :=
  match DELETE_try session user addressId modified with
  | inr r => r
  | inl e => (catchAll e, user)
  end.

End AddressRoutes.

(** ** Products ([interface IProduct], [ProductSchema])

    A JavaScript number received in a JSON body is a finite double, hence a
    rational; the handlers only test it against zero. The fields that the
    handlers below never read (images, stock flag, features, original price)
    are left out. *)

Record Product := mkProduct {
  p_id : jsstring;
  productId : jsstring;
  name : jsstring;
  description : jsstring;
  price : Q;
  category : jsstring;
  rating : Q;
  reviews : Q
}.

(** The body of a product request. *)
Module ProductBody.
Record t := mk {
  productId : option jsstring;
  name : option jsstring;
  description : option jsstring;
  price : option Q;
  category : option jsstring;
  image : option jsstring;
  rating : option Q;
  reviews : option Q
}.
End ProductBody.

Inductive ProductResponse :=
| ProductJson (status : Z) (product : Product)
| ProductError (status : Z) (error : string).

Definition productKindOf (r : ProductResponse) : option ErrorKind :=
  match r with
  | ProductJson _ _ => None
  | ProductError s e => kindOf (Failure s e)
  end.

(** [!v] on an optional string and on an optional number. *)
Definition notStr (v : option jsstring) : bool :=
  match v with None => true | Some s => falsy s end.

Definition notNum (v : option Q) : bool :=
  match v with None => true | Some q => Qeq_bool q 0 end.

(** [v < 0] *)
Definition negative (q : Q) : bool := negb (Qle_bool 0 q).

(** [v || 0] *)
Definition orZero (v : option Q) : Q :=
  match v with
  | Some q => if Qeq_bool q 0 then 0%Q else q
  | None => 0%Q
  end.

Definition hasProductId (id : jsstring) (products : list Product) : bool :=
  existsb (fun p => jsstring_eqb (productId p) id) products.

(** [Product.create]: the unique index on [productId] answers a duplicate
    with error code 11000. *)
Definition create (products : list Product) (p : Product)
    : Throws (list Product) :=
  if hasProductId (productId p) products
  then throw (MongoServerError 11000 "E11000 duplicate key error")
  else ret (push products p).

(** POST of [app/api/products/route.ts]. [newId] is the [_id] of the
    document created. *)
Definition POST_product_try (products : list Product) (body : ProductBody.t)
    (newId : jsstring) : Throws (ProductResponse * list Product) :=
  let productId := ProductBody.productId body in
  let name := ProductBody.name body in
  let description := ProductBody.description body in
  let price := ProductBody.price body in
  let category := ProductBody.category body in
  let image := ProductBody.image body in
  if notStr productId || notStr name || notStr description || notNum price
     || notStr category || notStr image
  then ret (ProductError 400
    "Missing required fields: productId, name, description, price, category, and image are required",
    products)
  else
    let existingProduct := hasProductId (default [] productId) products in
    if existingProduct
    then ret (ProductError 400 "Product ID already exists.", products)
    else
      let productData :=
        mkProduct newId (default [] productId) (default [] name)
          (default [] description) (default 0%Q price) (default [] category)
          (orZero (ProductBody.rating body))
          (orZero (ProductBody.reviews body)) in
      let! products' := create products productData in
      ret (ProductJson 201 productData, products').

Definition POST_product (products : list Product) (body : ProductBody.t)
    (newId : jsstring) : ProductResponse * list Product :=
  match POST_product_try products body newId with
  | inr r => r
  | inl (MongoServerError 11000 _) =>
      (ProductError 400 "Product ID already exists.", products)
  | inl _ => (ProductError 500 "Failed to create product", products)
  end.

(** [{ ...body }] merged into the stored product. *)
Definition mergeProduct (body : ProductBody.t) (p : Product) : Product :=
  mkProduct (p_id p)
    (default (productId p) (ProductBody.productId body))
    (default (name p) (ProductBody.name body))
    (default (description p) (ProductBody.description body))
    (default (price p) (ProductBody.price body))
    (default (category p) (ProductBody.category body))
    (default (rating p) (ProductBody.rating body))
    (default (reviews p) (ProductBody.reviews body)).

Section ProductRoutes.

Variable isValid : jsstring -> bool.

(** [findById] for an object identifier, and otherwise the lookup by
    [productId]; the schema has no [slug] and no [sku]. *)
Definition findProduct (id : jsstring) (products : list Product) : Z :=
  if isValid id
  then findIndex (fun p => jsstring_eqb (p_id p) id) products
  else findIndex (fun p => jsstring_eqb (productId p) id) products.

(** PUT of [app/api/products/[id]/route.ts]. *)
Definition PUT_product_try (products : list Product) (id : jsstring)
    (body : ProductBody.t) : Throws (ProductResponse * list Product) :=
  if falsy id
  then ret (ProductError 400 "Product identifier is required", products)
  else if match ProductBody.name body with
          | None => true
          | Some n => blank n
          end
  then ret (ProductError 400 "Product name is required", products)
  else if match ProductBody.price body with
          | None => false
          | Some q => negb (Qeq_bool q 0) && negative q
          end
  then ret (ProductError 400 "Price cannot be negative", products)
  else
    let index := findProduct id products in
    match (if index =? -1 then None else products !! Z.to_nat index) with
    | None => ret (ProductError 404 "Product not found", products)
    | Some p =>
        let p' := mergeProduct body p in
        if negb (jsstring_eqb (productId p') (productId p))
           && hasProductId (productId p') products
        then throw (MongoServerError 11000 "E11000 duplicate key error")
        else ret (ProductJson 200 p', <[Z.to_nat index := p']> products)
    end.

Definition PUT_product (products : list Product) (id : jsstring)
    (body : ProductBody.t) : ProductResponse * list Product :=
  match PUT_product_try products id body with
  | inr r => r
  | inl (ValidationError m) => (ProductError 400 m, products)
  | inl (MongoServerError 11000 _) =>
      (ProductError 409 "Duplicate product ID, SKU, or slug", products)
  | inl e => (ProductError 500 (messageOr e), products)
  end.

End ProductRoutes.

(** ** Orders *)

(** Modelled from the spec: the order schema ([models/Order]) is not among
    the sources. An order carries a status, one of the six values below, the
    time of its last update and, kept apart from it, the time of its last
    status change; a status outside the six values is refused by the schema
    validators. Times are milliseconds since the epoch. *)
Record Order := mkOrder {
  o_id : jsstring;
  status : jsstring;
  notes : option jsstring;
  updatedAt : Z;
  statusUpdatedAt : option Z
}.

Definition validStatuses : list jsstring :=
  [js "pending"; js "confirmed"; js "processing"; js "shipped";
   js "delivered"; js "cancelled"].

Module OrderBody.
Record t := mk {
  status : option jsstring;
  notes : option jsstring
}.
End OrderBody.

Inductive OrderResponse :=
| OrderJson (status : Z) (order : Order)
| OrderError (status : Z) (error : string).

(** [Order.findByIdAndUpdate(id, update)]: the fields present in [update]
    are set and no other. *)
Module OrderUpdate.
Record t := mk {
  status : option jsstring;
  notes : option jsstring;
  updatedAt : option Z;
  statusUpdatedAt : option Z
}.
End OrderUpdate.

Definition applyUpdate (u : OrderUpdate.t) (o : Order) : Order :=
  mkOrder (o_id o)
    (default (status o) (OrderUpdate.status u))
    (match OrderUpdate.notes u with Some n => Some n | None => notes o end)
    (default (updatedAt o) (OrderUpdate.updatedAt u))
    (match OrderUpdate.statusUpdatedAt u with
     | Some t => Some t
     | None => statusUpdatedAt o
     end).

Definition findByIdAndUpdate (runValidators : bool) (orders : list Order)
    (id : jsstring) (u : OrderUpdate.t)
    : Throws (option Order * list Order) :=
  if runValidators
     && match OrderUpdate.status u with
        | Some s => negb (includes validStatuses s)
        | None => false
        end
  then throw (ValidationError "Validation failed: status")
  else
    let index := findIndex (fun o => jsstring_eqb (o_id o) id) orders in
    match (if index =? -1 then None else orders !! Z.to_nat index) with
    | None => ret (None, orders)
    | Some o =>
        let o' := applyUpdate u o in
        ret (Some o', <[Z.to_nat index := o']> orders)
    end.

Section OrderRoutes.

Variable isValid : jsstring -> bool.

(** PUT of the order route. [now1] and [now2] are the two readings of
    the clock, [new Date()], in the order of the source. *)
Definition PUT_order_try (orders : list Order) (id : jsstring)
    (body : OrderBody.t) (now1 now2 : Z)
    : Throws (OrderResponse * list Order) :=
  if negb (isValid id)
  then ret (OrderError 400 "Invalid order ID", orders) else
  let status := OrderBody.status body in
  if negb (notStr status)
     && negb (includes validStatuses (default [] status))
  then ret (OrderError 400 "Invalid order status", orders) else
  let updateData :=
    OrderUpdate.mk status (OrderBody.notes body) (Some now1) None in
  let updateData :=
    if negb (notStr status)
    then OrderUpdate.mk (OrderUpdate.status updateData)
           (OrderUpdate.notes updateData)
           (OrderUpdate.updatedAt updateData) (Some now2)
    else updateData in
  let! found := findByIdAndUpdate true orders id updateData in
  match found with
  | (None, _) => ret (OrderError 404 "Order not found", orders)
  | (Some order, orders') => ret (OrderJson 200 order, orders')
  end.

Definition PUT_order (orders : list Order) (id : jsstring)
    (body : OrderBody.t) (now1 now2 : Z) : OrderResponse * list Order :=
  match PUT_order_try orders id body now1 now2 with
  | inr r => r
  | inl (ValidationError m) => (OrderError 400 m, orders)
  | inl e => (OrderError 500 (messageOr e), orders)
  end.

(** DELETE of the order route: the order is cancelled, not removed. *)
Definition DELETE_order_try (orders : list Order) (id : jsstring)
    (now : Z) : Throws (OrderResponse * list Order) :=
  if negb (isValid id)
  then ret (OrderError 400 "Invalid order ID", orders) else
  let! found :=
    findByIdAndUpdate false orders id
      (OrderUpdate.mk (Some (js "cancelled")) None (Some now) None) in
  match found with
  | (None, _) => ret (OrderError 404 "Order not found", orders)
  | (Some order, orders') => ret (OrderJson 200 order, orders')
  end.

Definition DELETE_order (orders : list Order) (id : jsstring) (now : Z)
    : OrderResponse * list Order :=
  match DELETE_order_try orders id now with
  | inr r => r
  | inl e => (OrderError 500 (messageOr e), orders)
  end.

End OrderRoutes.

(** ** Requests to the address book *)

(** A request to one user's address book, with what the environment
    contributes to it: the session, the identifier given to a new address
    and the answer of the change tracking. *)
Inductive Request :=
| Add (session : option jsstring) (body : Req.t) (newId : jsstring)
      (modified : bool)
| Update (session : option jsstring) (body : Req.t) (modified : bool)
| Remove (session : option jsstring) (addressId : option jsstring)
         (modified : bool).

Definition handle (isValid : jsstring -> bool) (user : Doc) (r : Request)
    : Response * Doc :=
  match r with
  | Add session body newId modified => POST session user body newId modified
  | Update session body modified => PUT isValid session user body modified
  | Remove session addressId modified =>
      DELETE isValid session user addressId modified
  end.

(** The document after a sequence of requests. *)
Definition run (isValid : jsstring -> bool) (user : Doc)
    (rs : list Request) : Doc :=
  fold_left (fun doc r => (handle isValid doc r).2) rs user.

(** * Vocabulary of the properties *)

(** [addresses.filter(addr => addr.isDefault).length] *)
Definition countDefault (addresses : list UserAddress) : nat :=
  length (List.filter isDefault addresses).

Definition atMostOneDefault (addresses : list UserAddress) : Prop :=
  (countDefault addresses <= 1)%nat.

(** The invariant of the data model: at most one default address, and
    exactly one when there is an address at all. *)
Definition validAddresses (addresses : list UserAddress) : Prop :=
  atMostOneDefault addresses /\
  (addresses <> [] -> countDefault addresses = 1%nat).

(** The list in which the address at [i], and no other, is the default. *)
Definition onlyDefault (i : nat) (addresses : list UserAddress)
    : list UserAddress :=
  imap (fun j addr => set_isDefault (bool_decide (j = i)) addr) addresses.

Definition docHolds (P : list UserAddress -> Prop) (doc : Doc) : Prop :=
  match doc with Some l => P l | None => True end.

Definition isUpdate (r : Request) : bool :=
  match r with Update _ _ _ => true | _ => false end.

(** The field assignments of [PUT], gathered into one function on the
    address they touch. *)
Definition updateFields (body : Req.t) (a : UserAddress) : UserAddress :=
  let upd {V} (field : option V) (set : V -> UserAddress -> UserAddress)
      (a : UserAddress) :=
    match field with Some v => set v a | None => a end in
  upd (Req.phone body) (fun v => set_phone (trim v))
   (upd (Req.label body) set_label
    (upd (Req.country body) (fun v => set_country (trim v))
     (upd (Req.zipCode body) (fun v => set_zipCode (trim v))
      (upd (Req.state body) (fun v => set_state (trim v))
       (upd (Req.city body) (fun v => set_city (trim v))
        (upd (Req.street body) (fun v => set_street (trim v)) a)))))).

(** Whether the identifier sent passes the two checks that precede the
    lookup. *)
Definition wellFormedId (isValid : jsstring -> bool)
    (addressId : option jsstring) : bool :=
  match addressId with
  | Some id => negb (falsy id) && isValid id
  | None => false
  end.

Definition blankField (field : option jsstring) : bool :=
  match field with Some v => blank v | None => false end.

Definition badZip (field : option jsstring) : bool :=
  match field with
  | Some z => blank z || negb (allDigits (trim z))
  | None => false
  end.

Definition badLabel (field : option jsstring) : bool :=
  match field with
  | Some l => negb (includes labels l)
  | None => false
  end.

(** A field that was sent is blank, the zip code sent is not made of
    digits, or the label sent is not one of the three. *)
Definition malformed (data : Partial.t) : bool :=
  blankField (Partial.street data) || blankField (Partial.city data)
  || blankField (Partial.state data) || badZip (Partial.zipCode data)
  || blankField (Partial.country data) || badLabel (Partial.label data).

(** The same on the body of a request. *)
Definition malformedBody (body : Req.t) : bool :=
  blankField (Req.street body) || blankField (Req.city body)
  || blankField (Req.state body) || badZip (Req.zipCode body)
  || blankField (Req.country body) || badLabel (Req.label body).

(** ** Sample data *)

(** [mongoose.Types.ObjectId.isValid] on a string, as the driver documents
    it: 24 hexadecimal characters. The handlers and the theorems take the
    predicate as a parameter; this instance serves the examples. *)
Definition isHexDigit (c : N) : bool :=
  (((0x30 <=? c) && (c <=? 0x39)) || ((0x41 <=? c) && (c <=? 0x46))
   || ((0x61 <=? c) && (c <=? 0x66)))%N.

Definition objectIdIsValid (s : jsstring) : bool :=
  (length s =? 24)%nat && forallb isHexDigit s.

Definition customer : option jsstring := Some (js "customer@example.com").

Definition idHome : jsstring := js "64b7f0c2a1d3e4f5a6b7c8d1".
Definition idWork : jsstring := js "64b7f0c2a1d3e4f5a6b7c8d2".
Definition idNew : jsstring := js "64b7f0c2a1d3e4f5a6b7c8d3".

Definition homeAddress : UserAddress :=
  mkAddress idHome (js "12 Lake Road") (js "Dhaka") (js "Dhaka") (js "1207")
    (js "Bangladesh") true (js "home") (Some (js "01700000000")).

Definition workAddress : UserAddress :=
  mkAddress idWork (js "7 Station Road") (js "Sylhet") (js "Sylhet")
    (js "3100") (js "Bangladesh") false (js "work") None.

(** [{ addressId, isDefault }] *)
Definition defaultBody (id : jsstring) (d : bool) : Req.t :=
  Req.mk (Some id) None None None None None (Some d) None None.

(** [{ street, city, state, zipCode, isDefault: false }] *)
Definition newBody (zip : string) : Req.t :=
  Req.mk None (Some (js " 3 Hill Road ")) (Some (js "Khulna"))
    (Some (js "Khulna")) (Some (js zip)) None (Some false) None None.

(** The same without the street. *)
Definition noStreetBody : Req.t :=
  Req.mk None None (Some (js "Khulna")) (Some (js "Khulna"))
    (Some (js "9000")) None (Some false) None None.

Definition newAddress : UserAddress :=
  mkAddress idNew (js "3 Hill Road") (js "Khulna") (js "Khulna") (js "9000")
    (js "Bangladesh") true (js "home") (Some (js "")).

Definition two_defaults : list UserAddress :=
  [ mkAddress (js "a1") (js "1 Lake Road") (js "Dhaka") (js "Dhaka")
      (js "1207") (js "Bangladesh") false (js "home") None;
    mkAddress (js "a2") (js "2 Lake Road") (js "Dhaka") (js "Dhaka")
      (js "1207") (js "Bangladesh") true (js "work") None;
    mkAddress (js "a3") (js "3 Lake Road") (js "Dhaka") (js "Dhaka")
      (js "1207") (js "Bangladesh") true (js "other") None ].

Definition productBody (p : Q) : ProductBody.t :=
  ProductBody.mk (Some (js "P-100")) (Some (js "Tea"))
    (Some (js "Green tea, 250 g")) (Some p) (Some (js "Grocery"))
    (Some (js "https://img.example.com/tea.png")) None None.

Definition idProduct : jsstring := js "64b7f0c2a1d3e4f5a6b7c8e1".

Definition idOrder : jsstring := js "64b7f0c2a1d3e4f5a6b7c8f1".

(** An order confirmed at time 1000. *)
Definition confirmedOrder : Order :=
  mkOrder idOrder (js "confirmed") None 1000 (Some 1000).

(** * Further code of the repository *)

(** ** GET - all addresses of the user *)


(** ** Vocabulary of the further properties *)

(** What [AddressSchema] and [validateAddressData] ask of an address: the
    street, city, state and country are trimmed and not blank, the zip code
    is made of digits, and the label is one of the three. *)
Definition storedOk (a : UserAddress) : Prop :=
  (blank (street a) = false /\ trim (street a) = street a) /\
  (blank (city a) = false /\ trim (city a) = city a) /\
  (blank (state a) = false /\ trim (state a) = state a) /\
  (blank (country a) = false /\ trim (country a) = country a) /\
  allDigits (zipCode a) = true /\
  includes labels (label a) = true.

(** The request is answered with an error. *)
Definition isFailure (r : Response) : bool :=
  match r with Failure _ _ => true | Success _ _ _ => false end.

(** The addresses without their default flags. *)
Definition eraseDefault (l : list UserAddress) : list UserAddress :=
  set_isDefault false <$> l.

(** Three requests in a row: a new address, the default moved to it, the
    home address removed. *)
Definition sampleRequests : list Request :=
  [ Add customer (Req.mk None (Some (js " 3 Hill Road ")) (Some (js "Khulna"))
                    (Some (js "Khulna")) (Some (js "9000")) None (Some false)
                    None None) idNew true;
    Update customer
      (Req.mk (Some idNew) None None None None None (Some true) None None) true;
    Remove customer (Some idHome) true ].

(** [{ addressId, street, zipCode }]: a new street and zip code for the
    work address. *)
Definition streetBody : Req.t :=
  Req.mk (Some idWork) (Some (js " 9 Mill Lane ")) None None
    (Some (js "3101 ")) None None None None.

(** ** Users ([UserSchema] and the user route)

    Of a user document the route reads and writes the name, the email, the
    role and the password hash. *)
Module UserDoc.
Record t := mk {
  _id : jsstring;
  name : jsstring;
  email : jsstring;
  role : jsstring;
  password : jsstring
}.
End UserDoc.

Module UserBody.
Record t := mk {
  name : option jsstring;
  email : option jsstring;
  role : option jsstring;
  password : option jsstring
}.
End UserBody.

(** The answers of the user route: a user without the password, the
    identifier of the user deleted, or an error. *)
Inductive UserResponse :=
| UserJson (status : Z) (_id name email role : jsstring)
| UserDeleted (status : Z) (id : jsstring)
| UserError (status : Z) (error : string).

(** [const validRoles], of the route. *)
Definition validRoles : list jsstring := [js "user"; js "admin"; js "moderator"].

(** The [enum] of [role] in [UserSchema]. *)
Definition schemaRoles : list jsstring := [js "user"; js "admin"; js "customer"].

(** *** The regular expression of the email check

    The expression is [/^[^\s@]+@[^\s@]+\.[^\s@]+$/]. A piece of it is a
    function from the rest of the expression, as a predicate on the rest of
    the string, to a predicate on the string. *)

(** [[^\s@]] *)
Definition notSpaceAt (c : N) : bool :=
  negb (isWhiteSpace c) && negb (c =? 0x40)%N.

(** [p+]: a character of the class, and then either the same again or the
    rest of the expression. *)
Fixpoint plus (p : N -> bool) (k : jsstring -> bool) (s : jsstring) : bool :=
  match s with
  | [] => false
  | c :: r => p c && (plus p k r || k r)
  end.

(** A literal character. *)
Definition lit (c : N) (k : jsstring -> bool) (s : jsstring) : bool :=
  match s with
  | [] => false
  | d :: r => (d =? c)%N && k r
  end.

(** [$] *)
Definition endOfInput (s : jsstring) : bool := falsy s.

(** [emailRegex.test(s)] *)
Definition emailRegex (s : jsstring) : bool :=
  plus notSpaceAt
    (lit 0x40 (plus notSpaceAt (lit 0x2E (plus notSpaceAt endOfInput)))) s.

Section UserRoutes.

(** [cast] is the cast of a string to an object identifier, in canonical
    form, [None] when [mongoose.Types.ObjectId.isValid] refuses the string;
    [toLowerCase] is [String.prototype.toLowerCase]; [hash] is
    [bcrypt.hash] with ten rounds. *)
Variable cast : jsstring -> option jsstring.
Variable toLowerCase : jsstring -> jsstring.
Variable hash : jsstring -> jsstring.

(** [User.findById(id)] *)
Definition findUser (id : jsstring) (users : list UserDoc.t) : Z :=
  findIndex (fun u => jsstring_eqb (UserDoc._id u) id) users.

(** GET of the user route. *)
Definition GET_user (users : list UserDoc.t) (id : jsstring) : UserResponse :=
  match cast id with
  | None => UserError 400 "Invalid user ID"
  | Some oid =>
      let index := findUser oid users in
      match (if index =? -1 then None else users !! Z.to_nat index) with
      | None => UserError 404 "User not found"
      | Some user =>
          UserJson 200 (UserDoc._id user) (UserDoc.name user)
            (UserDoc.email user) (UserDoc.role user)
      end
  end.

(** [updateData], as [findByIdAndUpdate] applies it: the schema setters
    run on the values ([trim] on the name; [trim], then [lowercase], on the
    email), and a field that is absent keeps its value. *)
Definition applyUserUpdate (name email : jsstring)
    (role password : option jsstring) (u : UserDoc.t) : UserDoc.t :=
  UserDoc.mk (UserDoc._id u) (trim name) (toLowerCase (trim email))
    (default (UserDoc.role u) role) (default (UserDoc.password u) password).

(** PUT of the user route. *)
Definition PUT_user_try (users : list UserDoc.t) (id : jsstring)
    (body : UserBody.t) : Throws (UserResponse * list UserDoc.t) :=
  match cast id with
  | None => ret (UserError 400 "Invalid user ID", users)
  | Some oid =>
      let name := UserBody.name body in
      let email := UserBody.email body in
      let role := UserBody.role body in
      let password := UserBody.password body in
      if match name with None => true | Some n => blank n end
      then ret (UserError 400 "Name is required", users)
      else if match email with None => true | Some e => blank e end
      then ret (UserError 400 "Email is required", users)
      else
        let lower := toLowerCase (default [] email) in
        if negb (emailRegex lower)
        then ret (UserError 400 "Invalid email format", users)
        else if negb (notStr role)
                && negb (includes validRoles (default [] role))
        then ret (UserError 400 "Invalid role", users)
        else
          let existingUser :=
            existsb (fun u => jsstring_eqb (UserDoc.email u) lower
                              && negb (jsstring_eqb (UserDoc._id u) oid))
                    users in
          if existingUser
          then ret (UserError 409 "Email already in use", users)
          else
            let role' := if notStr role then None else role in
            if negb (notStr password)
               && (length (default [] password) <? 6)%nat
            then ret (UserError 400
                        "Password must be at least 6 characters long", users)
            else
              let password' :=
                if notStr password then None
                else Some (hash (default [] password)) in
              (* runValidators: the enum of the role *)
              if match role' with
                 | Some r => negb (includes schemaRoles r)
                 | None => false
                 end
              then throw (ValidationError "Validation failed: role")
              else
                let index := findUser oid users in
                match (if index =? -1 then None
                       else users !! Z.to_nat index) with
                | None => ret (UserError 404 "User not found", users)
                | Some u =>
                    let u' :=
                      applyUserUpdate (default [] name) lower role' password'
                        u in
                    ret (UserJson 200 (UserDoc._id u') (UserDoc.name u')
                           (UserDoc.email u') (UserDoc.role u'),
                         <[Z.to_nat index := u']> users)
                end
  end.

Definition PUT_user (users : list UserDoc.t) (id : jsstring)
    (body : UserBody.t) : UserResponse * list UserDoc.t :=
  match PUT_user_try users id body with
  | inr r => r
  | inl (ValidationError m) => (UserError 400 m, users)
  | inl e => (UserError 500 (messageOr e), users)
  end.

(** DELETE of the user route. *)
Definition DELETE_user (users : list UserDoc.t) (id : jsstring)
    : UserResponse * list UserDoc.t :=
  match cast id with
  | None => (UserError 400 "Invalid user ID", users)
  | Some oid =>
      let index := findUser oid users in
      if index =? -1
      then (UserError 404 "User not found", users)
      else (UserDeleted 200 id, delete (Z.to_nat index) users)
  end.

End UserRoutes.

(** Sample data for the user route: lower case on the letters A to Z, the
    cast of 24 hexadecimal characters to their lower-case form, a stand-in
    for the password hash, and two users. *)
Definition asciiLower (s : jsstring) : jsstring :=
  (fun c => if ((0x41 <=? c) && (c <=? 0x5A))%N then (c + 32)%N else c) <$> s.

Definition objectIdCast (s : jsstring) : option jsstring :=
  if objectIdIsValid s then Some (asciiLower s) else None.

Definition sampleHash (p : jsstring) : jsstring := js "$2a$10$" ++ rev p.

Definition idAlice : jsstring := js "64b7f0c2a1d3e4f5a6b7c8a1".
Definition idBob : jsstring := js "64b7f0c2a1d3e4f5a6b7c8a2".

Definition alice : UserDoc.t :=
  UserDoc.mk idAlice (js "Alice") (js "alice@example.com") (js "customer")
    (js "$2a$10$hashA").

Definition bob : UserDoc.t :=
  UserDoc.mk idBob (js "Bob") (js "bob@example.com") (js "admin")
    (js "$2a$10$hashB").

(** A body that changes the role of a user, one that changes the password,
    and one that moves a user to a new email. *)
Definition roleBody (r : string) : UserBody.t :=
  UserBody.mk (Some (js "Alice")) (Some (js "Alice@Example.com"))
    (Some (js r)) None.

Definition passwordBody (p : string) : UserBody.t :=
  UserBody.mk (Some (js "Alice")) (Some (js "alice@example.com")) None
    (Some (js p)).

Definition emailBody (e : string) : UserBody.t :=
  UserBody.mk (Some (js "Alice")) (Some (js e)) None None.

(** A product of the catalogue and the body that created it. *)
Definition teaProduct : Product :=
  mkProduct idProduct (js "P-100") (js "Tea") (js "Green tea, 250 g") 5
    (js "Grocery") 0 0.

Definition coffeeBody : ProductBody.t :=
  ProductBody.mk (Some (js "P-200")) (Some (js "Coffee"))
    (Some (js "Ground coffee, 500 g")) (Some 9%Q) (Some (js "Grocery"))
    (Some (js "https://img.example.com/coffee.png")) None None.

(** ** The product forms ([AddProduct], [EditProductPage])

    Of the form data the image handlers read and write the main image and
    the list of images; an index is the position that the page passes. *)
Record FormImages := mkImages {
  image : jsstring;
  images : list jsstring
}.

Fixpoint filterIndexFrom {A} (p : nat -> bool) (k : nat) (l : list A)
    : list A :=
  match l with
  | [] => []
  | x :: r =>
      if p k then x :: filterIndexFrom p (S k) r
      else filterIndexFrom p (S k) r
  end.

(** [l.filter((_, i) => p i)] *)
Definition filterIndex {A} (p : nat -> bool) (l : list A) : list A :=
  filterIndexFrom p 0 l.

(** The state update of [handleImageUpload]; [successfulUploads] are the
    addresses of the images that were uploaded. *)
Definition addUploads (successfulUploads : list jsstring) (prev : FormImages)
    : FormImages :=
  mkImages
    (if negb (falsy (image prev)) then image prev
     else match successfulUploads !! 0%nat with
          | Some u => if negb (falsy u) then u else js ""
          | None => js ""
          end)
    (images prev ++ successfulUploads).

Definition removeImage (index : nat) (prev : FormImages) : FormImages :=
  let newImages :=
    filterIndex (fun i => negb (i =? index)%nat) (images prev) in
  mkImages
    (if (index =? 0)%nat && nonEmpty newImages
     then default (js "") (newImages !! 0%nat)
     else image prev)
    newImages.

Definition setPrimaryImage (index : nat) (prev : FormImages) : FormImages :=
  match images prev !! index with
  | None => prev
  | Some selected =>
      if falsy selected then prev
      else
        let newImages :=
          selected
          :: filterIndex (fun i => negb (i =? index)%nat) (images prev) in
        mkImages selected newImages
  end.

(** The features of the form: the list and the text being typed. *)
Definition FormFeatures : Type := list jsstring * jsstring.

Definition addFeature (st : FormFeatures) : FormFeatures :=
  let '(features, currentFeature) := st in
  if negb (jsstring_eqb (trim currentFeature) (js ""))
  then (push features (trim currentFeature), js "")
  else st.

Definition removeFeature (index : nat) (st : FormFeatures) : FormFeatures :=
  let '(features, currentFeature) := st in
  (filterIndex (fun i => negb (i =? index)%nat) features, currentFeature).

(** What the user does to the features: types a text, adds it, removes a
    feature. *)
Inductive FeatureEvent :=
| TypeFeature (text : jsstring)
| AddFeature
| RemoveFeature (index : nat).

Definition featureStep (st : FormFeatures) (e : FeatureEvent) : FormFeatures :=
  match e with
  | TypeFeature text => (st.1, text)
  | AddFeature => addFeature st
  | RemoveFeature index => removeFeature index st
  end.

(** No image of the list is the empty string, and the main image is the
    first of the images, when there is one. *)
Definition mainIsFirst (s : FormImages) : Prop :=
  Forall (fun u => falsy u = false) (images s) /\
  (images s <> [] -> images s !! 0%nat = Some (image s)).

(** A feature as the list holds it. *)
Definition featureOk (f : jsstring) : Prop := trim f = f /\ f <> [].

(** ** The pages of the product table ([ProductsCrudPage]) *)

Definition productsPerPage : Z := 6.

(** [l.slice(start, end)] *)
Definition slice {A} (start end_ : Z) (l : list A) : list A :=
  let len := Z.of_nat (length l) in
  let k := if start <? 0 then Z.max (len + start) 0 else Z.min start len in
  let final := if end_ <? 0 then Z.max (len + end_) 0 else Z.min end_ len in
  take (Z.to_nat (final - k)) (drop (Z.to_nat k) l).

Definition currentProducts {A} (currentPage : Z) (products : list A)
    : list A :=
  let indexOfLast := currentPage * productsPerPage in
  let indexOfFirst := indexOfLast - productsPerPage in
  slice indexOfFirst indexOfLast products.

(** [Math.ceil(products.length / productsPerPage)]; the quotient of the
    two integers is rounded up exactly as long as the length is below
    2^53. *)
Definition totalPages {A} (products : list A) : Z :=
  (Z.of_nat (length products) + productsPerPage - 1) / productsPerPage.

(** The buttons of the pagination. *)
Definition previousPage (p : Z) : Z := Z.max (p - 1) 1.
Definition nextPage (total p : Z) : Z := Z.min (p + 1) total.

Definition sampleImages : FormImages :=
  mkImages (js "a.png") [js "a.png"; js "b.png"; js "c.png"].

(** An addition followed by a removal. *)
Definition addRemoveRequests : list Request :=
  [ Add customer (Req.mk None (Some (js " 3 Hill Road ")) (Some (js "Khulna"))
                    (Some (js "Khulna")) (Some (js "9000")) None (Some true)
                    None None) idNew true;
    Remove customer (Some idNew) true ].

(** * Properties *)

(** ** Counting default addresses *)

Ltac refold :=
  repeat match goal with
  | |- context [list_alter ?f ?i ?l] =>
      change (list_alter f i l) with (alter f i l)
  | |- context [list_delete ?i ?l] =>
      change (list_delete i l) with (delete i l)
  end.

Lemma set_isDefault_same a : set_isDefault (isDefault a) a = a.
Proof. by destruct a. Qed.

Lemma set_isDefault_false_id a : isDefault a = false -> set_isDefault false a = a.
Proof. intros <-. apply set_isDefault_same. Qed.

Lemma countDefault_cons a l :
  countDefault (a :: l) = ((if isDefault a then 1 else 0) + countDefault l)%nat.
Proof. unfold countDefault. simpl. by destruct (isDefault a). Qed.

Lemma countDefault_app l1 l2 :
  countDefault (l1 ++ l2) = (countDefault l1 + countDefault l2)%nat.
Proof. unfold countDefault. by rewrite List.filter_app, length_app. Qed.

Lemma countDefault_clear l : countDefault (set_isDefault false <$> l) = 0%nat.
Proof. induction l as [|a l IH]; [done|]. simpl. by rewrite countDefault_cons. Qed.

Lemma countDefault_zero_lookup l i a :
  countDefault l = 0%nat -> l !! i = Some a -> isDefault a = false.
Proof.
  revert i. induction l as [|b l IH]; intros i Hc Hl; [done|].
  rewrite countDefault_cons in Hc.
  destruct i as [|i]; simpl in Hl.
  - inversion Hl; subst. destruct (isDefault a); [lia | done].
  - apply (IH i); [destruct (isDefault b); lia | done].
Qed.

Lemma countDefault_zero_intro l :
  (forall i a, l !! i = Some a -> isDefault a = false) -> countDefault l = 0%nat.
Proof.
  induction l as [|b l IH]; intros H; [done|].
  rewrite countDefault_cons, (H 0%nat b eq_refl), IH; [done|].
  intros i a Hi. apply (H (S i) a Hi).
Qed.

(** Two default addresses at different places count for two. *)
Lemma countDefault_unique l i j a b :
  atMostOneDefault l ->
  l !! i = Some a -> isDefault a = true ->
  l !! j = Some b -> isDefault b = true -> i = j.
Proof.
  unfold atMostOneDefault. revert i j.
  induction l as [|c l IH]; intros i j Hc Hi Ha Hj Hb; [done|].
  rewrite countDefault_cons in Hc.
  destruct i as [|i], j as [|j]; simpl in *; [done | | |].
  - inversion Hi; subst. rewrite Ha in Hc.
    assert (countDefault l = 0%nat) as H0 by lia.
    pose proof (countDefault_zero_lookup _ _ _ H0 Hj). congruence.
  - inversion Hj; subst. rewrite Hb in Hc.
    assert (countDefault l = 0%nat) as H0 by lia.
    pose proof (countDefault_zero_lookup _ _ _ H0 Hi). congruence.
  - f_equal. apply IH; try done. destruct (isDefault c); lia.
Qed.

Lemma countDefault_alter_keep (f : UserAddress -> UserAddress) i l :
  (forall a, isDefault (f a) = isDefault a) ->
  countDefault (alter f i l) = countDefault l.
Proof.
  intros Hf. revert i. induction l as [|a l IH]; intros i; [done|].
  destruct i as [|i]; simpl; refold; rewrite !countDefault_cons.
  - by rewrite Hf.
  - by rewrite IH.
Qed.

Lemma countDefault_alter_false i l :
  (countDefault (alter (set_isDefault false) i l) <= countDefault l)%nat.
Proof.
  revert i. induction l as [|a l IH]; intros i; [done|].
  destruct i as [|i]; simpl; refold; rewrite !countDefault_cons; simpl.
  - lia.
  - specialize (IH i). lia.
Qed.

Lemma countDefault_delete i l :
  countDefault (delete i l) =
  (countDefault l - match l !! i with
                    | Some a => if isDefault a then 1 else 0
                    | None => 0
                    end)%nat.
Proof.
  revert i. induction l as [|a l IH]; intros i; [by destruct i|].
  destruct i as [|i]; simpl; refold; rewrite ?countDefault_cons.
  - destruct (isDefault a); lia.
  - rewrite IH. destruct (isDefault a); [|lia].
    destruct (l !! i) as [b|] eqn:E; [|lia].
    destruct (isDefault b) eqn:Hb; [|lia].
    assert (countDefault l <> 0)%nat; [|lia].
    intros H0. pose proof (countDefault_zero_lookup _ _ _ H0 E). congruence.
Qed.

Lemma onlyDefault_lookup i l j :
  onlyDefault i l !! j = set_isDefault (bool_decide (j = i)) <$> l !! j.
Proof. unfold onlyDefault. by rewrite list_lookup_imap. Qed.

Lemma onlyDefault_length i l : length (onlyDefault i l) = length l.
Proof. unfold onlyDefault. by rewrite length_imap. Qed.

Lemma countDefault_imap_shift (k i : nat) l :
  countDefault (imap (fun j addr => set_isDefault (bool_decide (k + j = i)%nat) addr) l)
  = if bool_decide (k <= i < k + length l)%nat then 1%nat else 0%nat.
Proof.
  revert k. induction l as [|a l IH]; intros k.
  - simpl. case_bool_decide; [lia | done].
  - rewrite imap_cons, countDefault_cons. simpl.
    rewrite (imap_ext _ (fun j addr => set_isDefault (bool_decide (S k + j = i)%nat) addr)).
    2:{ intros j x _. simpl. f_equal. apply bool_decide_ext. lia. }
    rewrite IH. repeat case_bool_decide; lia.
Qed.

Lemma countDefault_onlyDefault i l :
  countDefault (onlyDefault i l) = if bool_decide (i < length l)%nat then 1%nat else 0%nat.
Proof.
  unfold onlyDefault.
  pose proof (countDefault_imap_shift 0 i l) as H. simpl in H. rewrite H.
  repeat case_bool_decide; lia.
Qed.

(** ** [findIndex] *)

Lemma findIndexFrom_range {A} (p : A -> bool) l k :
  findIndexFrom p l k = -1 \/ k <= findIndexFrom p l k < k + Z.of_nat (length l).
Proof.
  revert k. induction l as [|a l IH]; intros k; simpl; [by left|].
  destruct (p a); [right; lia|].
  destruct (IH (k + 1)) as [->|H]; [by left | right; lia].
Qed.

(** What [findIndexFrom] returns, when it is not [-1], is the place of the
    first element that satisfies the predicate. *)
Lemma findIndexFrom_Some {A} (p : A -> bool) l k i :
  0 <= k ->
  findIndexFrom p l k = k + Z.of_nat i <->
  exists a, l !! i = Some a /\ p a = true /\
            forall j b, (j < i)%nat -> l !! j = Some b -> p b = false.
Proof.
  intros Hk. revert k i Hk. induction l as [|a l IH]; intros k i Hk; simpl.
  - split; [lia | by intros (? & ? & _)].
  - destruct (p a) eqn:Hp.
    + split.
      * intros H. assert (i = 0%nat) as -> by lia.
        exists a. repeat split; [done|]. intros; lia.
      * intros (b & Hb & Hpb & Hfirst). destruct i as [|i]; [lia|].
        specialize (Hfirst 0%nat a ltac:(lia) eq_refl). congruence.
    + destruct i as [|i].
      * split.
        -- intros H. pose proof (findIndexFrom_range p l (k + 1)). lia.
        -- intros (b & Hb & Hpb & _). simpl in Hb. congruence.
      * replace (k + Z.of_nat (S i)) with (k + 1 + Z.of_nat i) by lia.
        rewrite IH by lia. split.
        -- intros (b & Hb & Hpb & Hfirst). exists b. repeat split; [done..|].
           intros [|j] c Hj Hc; simpl in Hc; [congruence|].
           apply (Hfirst j c); [lia | done].
        -- intros (b & Hb & Hpb & Hfirst). exists b. repeat split; [done..|].
           intros j c Hj Hc. apply (Hfirst (S j) c); [lia | done].
Qed.

Lemma findIndex_Some {A} (p : A -> bool) l i :
  findIndex p l = Z.of_nat i <->
  exists a, l !! i = Some a /\ p a = true /\
            forall j b, (j < i)%nat -> l !! j = Some b -> p b = false.
Proof. unfold findIndex. by rewrite <- (findIndexFrom_Some p l 0 i). Qed.

Lemma findIndexFrom_None {A} (p : A -> bool) l k :
  0 <= k ->
  findIndexFrom p l k = -1 <-> forall j b, l !! j = Some b -> p b = false.
Proof.
  revert k. induction l as [|a l IH]; intros k Hk; simpl.
  - split; [done | done].
  - destruct (p a) eqn:Hp.
    + split; [lia|]. intros H. specialize (H 0%nat a eq_refl). congruence.
    + rewrite IH by lia. split.
      * intros H [|j] b Hb; simpl in Hb; [congruence | by apply (H j)].
      * intros H j b Hb. by apply (H (S j)).
Qed.

Lemma findIndex_None {A} (p : A -> bool) l :
  findIndex p l = -1 <-> forall j b, l !! j = Some b -> p b = false.
Proof. unfold findIndex. by apply findIndexFrom_None. Qed.

Lemma findIndex_cases {A} (p : A -> bool) l :
  findIndex p l = -1 \/
  exists i, findIndex p l = Z.of_nat i /\ (i < length l)%nat.
Proof.
  destruct (findIndexFrom_range p l 0) as [H|H]; [by left|right].
  exists (Z.to_nat (findIndex p l)). unfold findIndex. lia.
Qed.

(** ** The pre-save pass *)

Lemma lookup_alter_set b i (l : list UserAddress) j :
  alter (set_isDefault b) i l !! j =
  (if bool_decide (j = i) then set_isDefault b <$> l !! j else l !! j).
Proof.
  case_bool_decide as H.
  - subst. apply list_lookup_alter_eq.
  - by apply list_lookup_alter_ne.
Qed.

(** One iteration of the hook's loop does not move the first default
    address, so that every iteration compares with the same index. *)
Lemma resetLoop_step_findIndex (l : list UserAddress) i :
  findIndex isDefault
    (alter (set_isDefault (Z.of_nat i =? findIndex isDefault l)) i l)
  = findIndex isDefault l.
Proof.
  destruct (findIndex_cases isDefault l) as [Hnone | (f & Hf & Hlen)].
  - rewrite Hnone. apply findIndex_None. intros j b.
    rewrite lookup_alter_set. rewrite findIndex_None in Hnone.
    case_bool_decide; [|by apply Hnone].
    destruct (l !! j) as [c|]; [|done]. simpl. intros [= <-]. simpl. lia.
  - rewrite Hf. apply findIndex_Some.
    apply findIndex_Some in Hf as (a & Ha & Hd & Hfirst).
    exists a. split; [|split; [done|]].
    + rewrite lookup_alter_set. case_bool_decide; [|done]. subst i.
      rewrite Ha. simpl. rewrite Z.eqb_refl, <- Hd. by rewrite set_isDefault_same.
    + intros j b Hj. rewrite lookup_alter_set.
      case_bool_decide; [|by apply Hfirst]. subst j.
      destruct (l !! i) as [c|]; [|done]. simpl. intros [= <-]. simpl. lia.
Qed.

Lemma resetLoop_spec n idx (l : list UserAddress) :
  resetLoop n idx l =
  imap (fun j a =>
          if bool_decide (idx <= j < idx + n)%nat
          then set_isDefault (Z.of_nat j =? findIndex isDefault l) a
          else a) l.
Proof.
  revert idx l. induction n as [|n IH]; intros idx l; simpl.
  - apply list_eq. intros j. rewrite list_lookup_imap.
    destruct (l !! j); [|done]. simpl. case_bool_decide; [lia | done].
  - rewrite IH, resetLoop_step_findIndex.
    apply list_eq. intros j. rewrite !list_lookup_imap, lookup_alter_set.
    destruct (bool_decide_reflect (j = idx)) as [->|Hne];
      destruct (l !! _) as [a|]; simpl; try done;
      repeat case_bool_decide; try lia; done.
Qed.

Lemma preSave_atMostOne modified l :
  atMostOneDefault l -> preSave modified l = l.
Proof.
  unfold preSave, atMostOneDefault, countDefault. intros H.
  destruct modified; [|done].
  destruct (Nat.ltb_spec 1 (length (List.filter isDefault l))); [lia | done].
Qed.

Lemma preSave_many l first :
  (1 < countDefault l)%nat ->
  findIndex isDefault l = Z.of_nat first ->
  preSave true l = onlyDefault first l.
Proof.
  unfold preSave, countDefault. intros H Hf.
  destruct (Nat.ltb_spec 1 (length (List.filter isDefault l))); [|lia].
  rewrite resetLoop_spec, Hf. unfold onlyDefault.
  apply imap_ext. intros j a Hj. simpl.
  apply lookup_lt_Some in Hj.
  case_bool_decide; [|lia]. f_equal.
  destruct (Z.eqb_spec (Z.of_nat j) (Z.of_nat first)); case_bool_decide; try done; lia.
Qed.

(** C7. When the address list about to be saved was modified and holds
    more than one default address, the pre-save pass keeps the first of
    them (by list order) as the default, clears the flag of every other
    address, and changes nothing else. *)
Theorem preSave_keeps_first_default (l : list UserAddress) :
  (1 < countDefault l)%nat ->
  exists first a,
    l !! first = Some a /\ isDefault a = true /\
    (forall j b, (j < first)%nat -> l !! j = Some b -> isDefault b = false) /\
    length (preSave true l) = length l /\
    (forall j b, l !! j = Some b ->
       preSave true l !! j = Some (set_isDefault (bool_decide (j = first)) b)) /\
    countDefault (preSave true l) = 1%nat.
Proof.
  intros Hmany.
  destruct (findIndex_cases isDefault l) as [Hnone | (f & Hf & Hlen)].
  - rewrite findIndex_None in Hnone.
    rewrite (countDefault_zero_intro l Hnone) in Hmany. lia.
  - pose proof Hf as Hfirst.
    apply findIndex_Some in Hfirst as (a & Ha & Hd & Hfirst).
    exists f, a. rewrite (preSave_many l f Hmany Hf).
    repeat split; try done.
    + apply onlyDefault_length.
    + intros j b Hb. by rewrite onlyDefault_lookup, Hb.
    + rewrite countDefault_onlyDefault. case_bool_decide; [done | lia].
Qed.

Lemma preSave_keeps_first_default_witness :
  (1 < countDefault two_defaults)%nat /\
  exists first a,
    two_defaults !! first = Some a /\ isDefault a = true /\
    (forall j b, (j < first)%nat -> two_defaults !! j = Some b -> isDefault b = false) /\
    length (preSave true two_defaults) = length two_defaults /\
    (forall j b, two_defaults !! j = Some b ->
       preSave true two_defaults !! j = Some (set_isDefault (bool_decide (j = first)) b)) /\
    countDefault (preSave true two_defaults) = 1%nat.
Proof.
  assert (1 < countDefault two_defaults)%nat as H by (vm_compute; lia).
  split; [exact H | exact (preSave_keeps_first_default two_defaults H)].
Defined.

Example preSave_two_defaults :
  isDefault <$> preSave true two_defaults = [false; true; false].
Proof. reflexivity. Qed.

(** ** The steps of the address handlers *)

Lemma transformAddresses_id l : transformAddresses l = l.
Proof. unfold transformAddresses. apply list_fmap_id. Qed.

Lemma assign_alter {V} (field : option V) set i l :
  assign field set i l =
  alter (fun a => match field with Some v => set v a | None => a end) i l.
Proof.
  destruct field; simpl; [done|].
  symmetry. apply list_eq. intros j.
  destruct (decide (j = i)) as [->|].
  - rewrite list_lookup_alter_eq. by destruct (l !! i).
  - by rewrite list_lookup_alter_ne.
Qed.

Lemma alter_alter {A} (f g : A -> A) i (l : list A) :
  alter f i (alter g i l) = alter (fun a => f (g a)) i l.
Proof.
  apply list_eq. intros j. destruct (decide (j = i)) as [->|].
  - rewrite !list_lookup_alter_eq. by destruct (l !! i).
  - by rewrite !list_lookup_alter_ne.
Qed.

Lemma assignFields_alter body i l :
  assignFields body i l = alter (updateFields body) i l.
Proof.
  unfold assignFields. rewrite !assign_alter.
  by rewrite !alter_alter.
Qed.

Lemma updateFields_isDefault body a :
  isDefault (updateFields body a) = isDefault a.
Proof.
  unfold updateFields.
  by destruct (Req.phone body), (Req.label body), (Req.country body),
    (Req.zipCode body), (Req.state body), (Req.city body), (Req.street body).
Qed.

Lemma updateFields_id body a : _id (updateFields body a) = _id a.
Proof.
  unfold updateFields.
  by destruct (Req.phone body), (Req.label body), (Req.country body),
    (Req.zipCode body), (Req.state body), (Req.city body), (Req.street body).
Qed.

Lemma assignFields_lookup body i l j :
  assignFields body i l !! j =
  (if bool_decide (j = i) then updateFields body <$> l !! j else l !! j).
Proof.
  rewrite assignFields_alter. case_bool_decide.
  - subst. apply list_lookup_alter_eq.
  - by apply list_lookup_alter_ne.
Qed.

Lemma assignFields_countDefault body i l :
  countDefault (assignFields body i l) = countDefault l.
Proof.
  rewrite assignFields_alter. apply countDefault_alter_keep.
  apply updateFields_isDefault.
Qed.

Lemma some_true {A} (p : nat -> A -> bool) l :
  some p l = true <-> exists j a, l !! j = Some a /\ p j a = true.
Proof.
  unfold some. rewrite List.existsb_exists. split.
  - intros (b & Hin & ->). apply list_elem_of_In in Hin.
    apply elem_of_lookup_imap in Hin as (j & a & -> & Ha). eauto.
  - intros (j & a & Ha & Hp). exists true. split; [|done].
    apply list_elem_of_In, elem_of_lookup_imap. exists j, a. by rewrite Hp.
Qed.

Lemma otherIsDefault_false i l j a :
  otherIsDefault i l = false -> l !! j = Some a -> j <> i ->
  isDefault a = false.
Proof.
  intros Hno Ha Hne. destruct (isDefault a) eqn:Hd; [|done].
  assert (otherIsDefault i l = true) as H; [|congruence].
  apply some_true. exists j, a. split; [done|].
  rewrite Hd. apply Nat.eqb_neq in Hne. by rewrite Hne.
Qed.

Lemma otherIsDefault_true i l j a :
  l !! j = Some a -> j <> i -> isDefault a = true -> otherIsDefault i l = true.
Proof.
  intros Ha Hne Hd. apply some_true. exists j, a. split; [done|].
  rewrite Hd. apply Nat.eqb_neq in Hne. by rewrite Hne.
Qed.

Lemma clearOthers_lookup i l j :
  clearOthers i l !! j =
  (if bool_decide (j = i) then l !! j else set_isDefault false <$> l !! j).
Proof.
  unfold clearOthers. rewrite list_lookup_imap.
  destruct (l !! j) as [a|]; simpl; [|by case_bool_decide].
  destruct (Nat.eqb_spec j i); case_bool_decide; try done.
Qed.

(** Asking for the default leaves the target as the only default address,
    whichever branch of the handler is taken. *)
Lemma make_default_onlyDefault i l :
  setStep (Some true) i (clearStep (Some true) i l) = onlyDefault i l.
Proof.
  unfold setStep, clearStep. simpl.
  apply list_eq. intros j. rewrite onlyDefault_lookup, lookup_alter_set.
  destruct (otherIsDefault i l) eqn:Hother.
  - rewrite clearOthers_lookup.
    case_bool_decide; [done|]. by destruct (l !! j).
  - case_bool_decide; [done|].
    destruct (l !! j) as [a|] eqn:Ha; [|done]. simpl.
    by rewrite (set_isDefault_false_id a (otherIsDefault_false i l j a Hother Ha H)).
Qed.

(** With a single default address elsewhere, clearing the others changes
    that address and no other. *)
Lemma clearOthers_unique i d l a :
  atMostOneDefault l -> l !! d = Some a -> isDefault a = true -> d <> i ->
  clearOthers i l = alter (set_isDefault false) d l.
Proof.
  intros Hone Ha Hd Hne. apply list_eq. intros j.
  rewrite clearOthers_lookup, lookup_alter_set.
  repeat case_bool_decide; subst; try done.
  destruct (l !! j) as [b|] eqn:Hb; [|done]. simpl. f_equal.
  apply set_isDefault_false_id. destruct (isDefault b) eqn:Hdb; [|done].
  exfalso. pose proof (countDefault_unique l j d b a Hone Hb Hdb Ha Hd). done.
Qed.

Lemma countDefault_alter_false_at d l a :
  l !! d = Some a -> isDefault a = true ->
  countDefault (alter (set_isDefault false) d l) = (countDefault l - 1)%nat.
Proof.
  revert d. induction l as [|b l IH]; intros d Ha Hd; [done|].
  destruct d as [|d]; simpl in *; refold; rewrite !countDefault_cons.
  - inversion Ha; subst. rewrite Hd. simpl. lia.
  - rewrite (IH d Ha Hd). destruct (isDefault b); [|lia].
    assert (countDefault l <> 0)%nat; [|lia].
    intros H0. pose proof (countDefault_zero_lookup _ _ _ H0 Ha). congruence.
Qed.

Lemma countDefault_alter_true i l a :
  l !! i = Some a -> isDefault a = false ->
  countDefault (alter (set_isDefault true) i l) = S (countDefault l).
Proof.
  revert i. induction l as [|b l IH]; intros i Ha Hd; [done|].
  destruct i as [|i]; simpl in *; refold; rewrite !countDefault_cons.
  - inversion Ha; subst. rewrite Hd. simpl. lia.
  - rewrite (IH i Ha Hd). lia.
Qed.

(** ** Locating the address *)

Section AddressProperties.

Variable isValid : jsstring -> bool.

Lemma locate_found session l id i :
  noSession session = false -> falsy id = false -> isValid id = true ->
  findIndex (fun addr => jsstring_eqb (_id addr) id) l = Z.of_nat i ->
  locate isValid session (Some l) (Some id) = inr (l, i).
Proof.
  intros Hs Hid Hv Hi. unfold locate. rewrite Hs, Hid, Hv, Hi. simpl.
  destruct (Z.eqb_spec (Z.of_nat i) (-1)); [lia|].
  by rewrite Nat2Z.id.
Qed.

(** Whatever [locate] answers, a response of its own ends the request,
    and an index is one of the list. *)
Lemma locate_inr session user addressId l i :
  locate isValid session user addressId = inr (l, i) ->
  user = Some l /\ (i < length l)%nat /\
  exists id, addressId = Some id /\
    findIndex (fun addr => jsstring_eqb (_id addr) id) l = Z.of_nat i.
Proof.
  unfold locate. destruct (noSession session); [done|].
  destruct addressId as [id|]; [|done].
  destruct (falsy id); [done|]. destruct (negb (isValid id)); [done|].
  destruct user as [l'|]; [|done].
  destruct (findIndex_cases (fun addr => jsstring_eqb (_id addr) id) l')
    as [H | (k & H & Hk)]; rewrite H.
  - done.
  - destruct (Z.eqb_spec (Z.of_nat k) (-1)); [lia|].
    rewrite Nat2Z.id. intros [= <- <-]. eauto.
Qed.

Lemma PUT_located session user body modified l i :
  locate isValid session user (Req.addressId body) = inr (l, i) ->
  validateAddressData
    (Partial.mk (Req.street body) (Req.city body) (Req.state body)
       (Req.zipCode body) (Req.country body) (Req.label body)
       (Req.phone body)) = [] ->
  PUT isValid session user body modified =
  let l' :=
    save modified
      (setStep (Req.isDefault body) i
         (clearStep (Req.isDefault body) i (assignFields body i l))) in
  (Success 200 "Address updated successfully" (transformAddresses l'),
   Some l').
Proof. intros Hloc Hval. unfold PUT, PUT_try. by rewrite Hloc, Hval. Qed.

Lemma DELETE_located session user addressId modified l i a :
  locate isValid session user addressId = inr (l, i) ->
  l !! i = Some a ->
  DELETE isValid session user addressId modified =
  let l' := save modified (spliceAddress (isDefault a) i l) in
  (Success 200 "Address deleted successfully" (transformAddresses l'),
   Some l').
Proof.
  intros Hloc Ha. unfold DELETE, DELETE_try. by rewrite Hloc, Ha.
Qed.

(** C2. When the list has a single default address and [PUT] asks for
    the default on another address, the handler succeeds; clearing
    changes the previously default address and no other; every address
    but these two is returned as it was; and each state that the list
    goes through (after the field assignments, after the clearing, after
    the setting, which is the list saved and returned) has at most one
    default address, the last one exactly one. *)
Theorem PUT_default_moves_single_flag
    session l body id i d a modified :
  noSession session = false ->
  Req.addressId body = Some id -> falsy id = false -> isValid id = true ->
  findIndex (fun addr => jsstring_eqb (_id addr) id) l = Z.of_nat i ->
  validateAddressData
    (Partial.mk (Req.street body) (Req.city body) (Req.state body)
       (Req.zipCode body) (Req.country body) (Req.label body)
       (Req.phone body)) = [] ->
  Req.isDefault body = Some true ->
  countDefault l = 1%nat ->
  l !! d = Some a -> isDefault a = true -> d <> i ->
  let l1 := assignFields body i l in
  let l2 := clearStep (Some true) i l1 in
  let l3 := setStep (Some true) i l2 in
  PUT isValid session (Some l) body modified
    = (Success 200 "Address updated successfully" l3, Some l3) /\
  l2 = alter (set_isDefault false) d l1 /\
  l3 !! d = Some (set_isDefault false a) /\
  (exists t, l !! i = Some t /\
     l3 !! i = Some (set_isDefault true (updateFields body t))) /\
  (forall j, j <> d -> j <> i -> l3 !! j = l !! j) /\
  length l3 = length l /\
  countDefault l1 = 1%nat /\ countDefault l2 = 0%nat /\
  countDefault l3 = 1%nat.
Proof.
  intros Hs Hid Hf Hv Hi Hval Hdef Hc Ha Hd Hne l1 l2 l3.
  assert (Hc1 : countDefault l1 = 1%nat)
    by (unfold l1; by rewrite assignFields_countDefault).
  assert (Ha1 : l1 !! d = Some a).
  { unfold l1. rewrite assignFields_lookup. by case_bool_decide. }
  assert (Hone1 : atMostOneDefault l1) by (unfold atMostOneDefault; lia).
  assert (Hl2 : l2 = alter (set_isDefault false) d l1).
  { unfold l2, clearStep. simpl.
    rewrite (otherIsDefault_true i l1 d a Ha1 Hne Hd).
    by apply (clearOthers_unique i d l1 a). }
  assert (Hc2 : countDefault l2 = 0%nat).
  { rewrite Hl2, (countDefault_alter_false_at d l1 a Ha1 Hd). lia. }
  assert (Hl3 : l3 = onlyDefault i l1) by apply make_default_onlyDefault.
  assert (Hlen : (i < length l)%nat).
  { apply findIndex_Some in Hi as (t & Ht & _). by apply lookup_lt_Some in Ht. }
  assert (Hlen1 : length l1 = length l).
  { unfold l1. by rewrite assignFields_alter, length_alter. }
  assert (Hc3 : countDefault l3 = 1%nat).
  { rewrite Hl3, countDefault_onlyDefault, Hlen1. by case_bool_decide. }
  split; [|repeat split; try done].
  - rewrite (PUT_located session (Some l) body modified l i); [|by rewrite Hid; apply locate_found|done].
    rewrite Hdef. cbv zeta. change (assignFields body i l) with l1.
    change (clearStep (Some true) i l1) with l2.
    change (setStep (Some true) i l2) with l3. unfold save.
    rewrite (preSave_atMostOne modified l3)
      by (unfold atMostOneDefault; lia).
    by rewrite transformAddresses_id.
  - rewrite Hl3, onlyDefault_lookup, Ha1. simpl. by case_bool_decide.
  - apply findIndex_Some in Hi as (t & Ht & _). exists t. split; [done|].
    rewrite Hl3, onlyDefault_lookup. unfold l1.
    rewrite assignFields_lookup, Ht. simpl. by repeat case_bool_decide.
  - intros j Hjd Hji. rewrite Hl3, onlyDefault_lookup. unfold l1.
    rewrite assignFields_lookup. repeat case_bool_decide; try done.
    destruct (l !! j) as [b|] eqn:Hb; [|done]. simpl. f_equal.
    apply set_isDefault_false_id. destruct (isDefault b) eqn:Hdb; [|done].
    exfalso. apply Hjd.
    apply (countDefault_unique l j d b a); try done.
    unfold atMostOneDefault. lia.
  - by rewrite Hl3, onlyDefault_length.
Qed.

(** C3. When [DELETE] removes the default address of a list with a
    single default, the handler succeeds and returns the remaining
    addresses with the first of them, and only it, turned into the
    default; none of the remaining addresses was a default before the
    promotion, and when nothing remains no address is the default. *)
Theorem DELETE_default_promotes_first session l id i a modified :
  noSession session = false -> falsy id = false -> isValid id = true ->
  findIndex (fun addr => jsstring_eqb (_id addr) id) l = Z.of_nat i ->
  l !! i = Some a -> isDefault a = true ->
  atMostOneDefault l ->
  let rest := delete i l in
  let l' := match rest with
            | [] => []
            | first :: others => set_isDefault true first :: others
            end in
  DELETE isValid session (Some l) (Some id) modified
    = (Success 200 "Address deleted successfully" l', Some l') /\
  countDefault rest = 0%nat /\
  countDefault l' = (if nonEmpty rest then 1%nat else 0%nat).
Proof.
  intros Hs Hf Hv Hi Ha Hd Hone rest l'.
  assert (Hrest : countDefault rest = 0%nat).
  { unfold rest. rewrite countDefault_delete, Ha, Hd.
    unfold atMostOneDefault in Hone. lia. }
  assert (Hl' : countDefault l' = (if nonEmpty rest then 1%nat else 0%nat)).
  { unfold l'. destruct rest as [|b r]; [done|].
    rewrite countDefault_cons in *. simpl.
    destruct (isDefault b); simpl in *; lia. }
  split; [|done].
  rewrite (DELETE_located session (Some l) (Some id) modified l i a);
    [|by apply locate_found|done].
  rewrite Hd. cbv zeta.
  assert (spliceAddress true i l = l') as ->.
  { unfold spliceAddress, splice1. fold rest. unfold l'. by destruct rest. }
  unfold save. rewrite preSave_atMostOne.
  - by rewrite transformAddresses_id.
  - unfold atMostOneDefault. rewrite Hl'. destruct (nonEmpty rest); lia.
Qed.

Lemma locate_unknown session user addressId :
  noSession session = false ->
  (forall id l a, addressId = Some id -> user = Some l -> a ∈ l ->
                  _id a <> id) ->
  exists s e, locate isValid session user addressId = inl (Failure s e) /\
    s = if wellFormedId isValid addressId then 404 else 400.
Proof.
  intros Hs Hno. unfold locate, wellFormedId. rewrite Hs.
  destruct addressId as [id|]; [|by eauto].
  destruct (falsy id); [by eauto|]. simpl.
  destruct (isValid id); simpl; [|by eauto].
  destruct user as [l|]; [|by eauto].
  assert (findIndex (fun addr => jsstring_eqb (_id addr) id) l = -1) as ->.
  { apply findIndex_None. intros j b Hb.
    unfold jsstring_eqb. apply bool_decide_eq_false.
    apply (Hno id l b); try done. by apply list_elem_of_lookup_2 in Hb. }
  simpl. eauto.
Qed.

(** C5, amended. For an authenticated caller and an identifier that no
    address of the user's list carries, [PUT] and [DELETE] both fail and
    leave the stored document as it was: with NotFound (404) when the
    identifier is non-empty and passes the format check, and with a
    validation failure (400) when it is missing, empty or malformed. *)
Theorem unknown_address_rejected session user body addressId modified :
  noSession session = false ->
  (forall id l a, addressId = Some id -> user = Some l -> a ∈ l ->
                  _id a <> id) ->
  Req.addressId body = addressId ->
  let expected :=
    Some (if wellFormedId isValid addressId then NotFound else ValidationFailure) in
  (kindOf (PUT isValid session user body modified).1 = expected /\
   (PUT isValid session user body modified).2 = user) /\
  (kindOf (DELETE isValid session user addressId modified).1 = expected /\
   (DELETE isValid session user addressId modified).2 = user).
Proof.
  intros Hs Hno Hbody expected.
  destruct (locate_unknown session user addressId Hs Hno)
    as (s & e & Hloc & Hcode).
  unfold PUT, PUT_try, DELETE, DELETE_try. rewrite Hbody, Hloc. simpl.
  unfold expected. rewrite Hcode.
  by destruct (wellFormedId isValid addressId).
Qed.

End AddressProperties.

(** ** Validation *)

Lemma requireField_app field msg errors :
  requireField field msg errors =
  errors ++ (if blankField field then [msg] else []).
Proof.
  unfold requireField, blankField, push. destruct field as [v|].
  - by destruct (blank v); rewrite ?app_nil_r.
  - by rewrite app_nil_r.
Qed.

Lemma requireZip_nil field errors :
  requireZip field errors = [] <-> errors = [] /\ badZip field = false.
Proof.
  unfold requireZip, badZip, push. destruct field as [z|]; [|intuition congruence].
  destruct (blank z); simpl.
  - split; [intros H; by apply app_nil in H as [_ ?] | by intros [_ ?]].
  - destruct (allDigits (trim z)); simpl; [intuition congruence|].
    split; [intros H; by apply app_nil in H as [_ ?] | by intros [_ ?]].
Qed.

Lemma requireLabel_nil field errors :
  requireLabel field errors = [] <-> errors = [] /\ badLabel field = false.
Proof.
  unfold requireLabel, badLabel, push. destruct field as [l|]; [|intuition congruence].
  destruct (includes labels l); simpl; [intuition congruence|].
  split; [intros H; by apply app_nil in H as [_ ?] | by intros [_ ?]].
Qed.

Lemma requireField_nil field msg errors :
  requireField field msg errors = [] <->
  errors = [] /\ blankField field = false.
Proof.
  rewrite requireField_app. destruct (blankField field).
  - split; [intros H; by apply app_nil in H as [_ ?] | by intros [_ ?]].
  - rewrite app_nil_r. intuition congruence.
Qed.

(** [validateAddressData] reports an error exactly for malformed data. *)
Lemma validateAddressData_nil data :
  validateAddressData data = [] <-> malformed data = false.
Proof.
  unfold validateAddressData, malformed.
  rewrite requireLabel_nil, requireField_nil, requireZip_nil,
    !requireField_nil.
  rewrite !orb_false_iff. intuition congruence.
Qed.

Lemma validateAddressData_nonEmpty data :
  malformed data = true -> nonEmpty (validateAddressData data) = true.
Proof.
  intros H. destruct (validateAddressData data) eqn:E; [|done].
  apply validateAddressData_nil in E. congruence.
Qed.

(** C6, amended. For an authenticated caller, a request to add an address
    in which a street, city, state, zip code or country that was sent is
    empty or blank, or the zip code sent is not made of digits only, or the
    label sent is not one of home, work and other, fails with a validation
    failure (400), and the stored document is left as it was. *)
Theorem POST_malformed_rejected session user body newId modified :
  noSession session = false ->
  malformedBody body = true ->
  kindOf (POST session user body newId modified).1 = Some ValidationFailure /\
  (POST session user body newId modified).2 = user.
Proof.
  intros Hs Hbad. unfold POST, POST_try. rewrite Hs.
  rewrite validateAddressData_nonEmpty; [done|].
  unfold malformed, malformedBody in *. simpl.
  by destruct (Req.country body) as [c|], (Req.label body) as [lb|];
    simpl in *; rewrite ?orb_false_r in *.
Qed.

(** ** The single-default invariant along the handlers *)

Lemma validAddresses_nil : validAddresses [].
Proof. split; [unfold atMostOneDefault; cbn; lia | done]. Qed.

Lemma countDefault_push l a :
  countDefault (push l a) =
  (countDefault l + (if isDefault a then 1 else 0))%nat.
Proof.
  unfold push. rewrite countDefault_app, countDefault_cons.
  change (countDefault []) with 0%nat. lia.
Qed.

(** [POST] keeps the invariant: the first address is forced to be the
    default, and a new default clears the former one. *)
Lemma pushAddress_valid new l :
  validAddresses l -> validAddresses (pushAddress new l).
Proof.
  intros [Hone Hex]. unfold pushAddress.
  assert (countDefault (pushAddress new l) = 1%nat) as H.
  { unfold pushAddress. destruct l as [|b l].
    - rewrite andb_false_r. simpl. by rewrite countDefault_push.
    - specialize (Hex ltac:(done)).
      rewrite andb_true_r. destruct (isDefault new) eqn:Hd.
      + simpl length. simpl Nat.eqb. cbv iota.
        rewrite countDefault_push, Hd, countDefault_clear. done.
      + simpl length. simpl Nat.eqb. cbv iota.
        rewrite countDefault_push, Hd, Hex. done. }
  unfold pushAddress in H. split; [unfold atMostOneDefault; lia | done].
Qed.

(** [DELETE] keeps the invariant: when the default goes, the first of
    the remaining addresses takes over. *)
Lemma spliceAddress_valid i l a :
  validAddresses l -> l !! i = Some a ->
  validAddresses (spliceAddress (isDefault a) i l).
Proof.
  intros [Hone Hex] Ha. unfold spliceAddress, splice1.
  assert (l <> []) as Hne by (intros ->; done).
  specialize (Hex Hne).
  pose proof (countDefault_delete i l) as Hdel. rewrite Ha in Hdel.
  destruct (isDefault a) eqn:Hd; simpl.
  - destruct (delete i l) as [|b r] eqn:Hrest; [apply validAddresses_nil|].
    simpl. rewrite countDefault_cons in Hdel.
    assert (countDefault (set_isDefault true b :: r) = 1%nat) as H.
    { rewrite countDefault_cons. simpl. destruct (isDefault b); lia. }
    split; [unfold atMostOneDefault; lia | done].
  - split; [unfold atMostOneDefault; lia | intros _; lia].
Qed.

(** [PUT] keeps the list from holding two default addresses. *)
Lemma PUT_steps_atMostOne body i l :
  atMostOneDefault l ->
  atMostOneDefault
    (setStep (Req.isDefault body) i
       (clearStep (Req.isDefault body) i (assignFields body i l))).
Proof.
  unfold atMostOneDefault. intros Hone.
  pose proof (assignFields_countDefault body i l) as Hc.
  destruct (Req.isDefault body) as [[|]|].
  - rewrite make_default_onlyDefault, countDefault_onlyDefault.
    case_bool_decide; lia.
  - simpl.
    pose proof (countDefault_alter_false i (assignFields body i l)). lia.
  - simpl. lia.
Qed.

(** It keeps the whole invariant unless it takes the flag away from the
    default address itself. *)
Lemma PUT_steps_valid body i l a :
  validAddresses l -> l !! i = Some a ->
  (Req.isDefault body = Some false -> isDefault a = false) ->
  validAddresses
    (setStep (Req.isDefault body) i
       (clearStep (Req.isDefault body) i (assignFields body i l))).
Proof.
  intros [Hone Hex] Ha Hkeep.
  assert (l <> []) as Hne by (intros ->; done).
  specialize (Hex Hne).
  pose proof (assignFields_countDefault body i l) as Hc.
  assert (length (assignFields body i l) = length l) as Hlen
    by (by rewrite assignFields_alter, length_alter).
  apply lookup_lt_Some in Ha as Hi.
  assert (countDefault
    (setStep (Req.isDefault body) i
       (clearStep (Req.isDefault body) i (assignFields body i l))) = 1%nat) as H.
  { destruct (Req.isDefault body) as [[|]|].
    - rewrite make_default_onlyDefault, countDefault_onlyDefault, Hlen.
      by case_bool_decide.
    - simpl. specialize (Hkeep eq_refl).
      assert (alter (set_isDefault false) i (assignFields body i l)
              = assignFields body i l) as ->; [|lia].
      apply list_eq. intros j. rewrite lookup_alter_set.
      case_bool_decide; [subst|done].
      rewrite assignFields_lookup, Ha. case_bool_decide; [|done]. simpl.
      f_equal. apply set_isDefault_false_id.
      by rewrite updateFields_isDefault.
    - simpl. lia. }
  split; [unfold atMostOneDefault; lia | done].
Qed.

Lemma pushAddress_atMostOne new l :
  atMostOneDefault l -> atMostOneDefault (pushAddress new l).
Proof.
  unfold atMostOneDefault, pushAddress. intros Hone.
  destruct l as [|b l].
  - rewrite andb_false_r. simpl. rewrite countDefault_push. cbn. lia.
  - rewrite andb_true_r. destruct (isDefault new) eqn:Hd.
    + simpl length. simpl Nat.eqb. cbv iota.
      rewrite countDefault_push, Hd, countDefault_clear. lia.
    + simpl length. simpl Nat.eqb. cbv iota.
      rewrite countDefault_push, Hd. lia.
Qed.

Lemma spliceAddress_atMostOne i l a :
  atMostOneDefault l -> l !! i = Some a ->
  atMostOneDefault (spliceAddress (isDefault a) i l).
Proof.
  unfold atMostOneDefault, spliceAddress, splice1. intros Hone Ha.
  pose proof (countDefault_delete i l) as Hdel. rewrite Ha in Hdel.
  destruct (isDefault a) eqn:Hd; simpl; [|lia].
  destruct (delete i l) as [|b r] eqn:Hrest; simpl; [cbn; lia|].
  rewrite countDefault_cons in *. simpl. destruct (isDefault b); lia.
Qed.

Section AddressInvariant.

Variable isValid : jsstring -> bool.

Lemma POST_atMostOne session user body newId modified :
  docHolds atMostOneDefault user ->
  docHolds atMostOneDefault (POST session user body newId modified).2.
Proof.
  intros H. unfold POST, POST_try.
  destruct (noSession session); [done|].
  destruct (nonEmpty _); [done|].
  destruct user as [l|]; [|done].
  destruct (Req.street body), (Req.city body), (Req.state body),
    (Req.zipCode body); simpl; try done.
  unfold save. rewrite preSave_atMostOne; by apply pushAddress_atMostOne.
Qed.

Lemma POST_valid session user body newId modified :
  docHolds validAddresses user ->
  docHolds validAddresses (POST session user body newId modified).2.
Proof.
  intros H. unfold POST, POST_try.
  destruct (noSession session); [done|].
  destruct (nonEmpty _); [done|].
  destruct user as [l|]; [|done].
  destruct (Req.street body), (Req.city body), (Req.state body),
    (Req.zipCode body); simpl; try done.
  unfold save.
  rewrite preSave_atMostOne; by apply pushAddress_valid.
Qed.

Lemma PUT_atMostOne session user body modified :
  docHolds atMostOneDefault user ->
  docHolds atMostOneDefault (PUT isValid session user body modified).2.
Proof.
  intros H. unfold PUT, PUT_try.
  destruct (locate isValid session user (Req.addressId body))
    as [r | [l i]] eqn:Hloc; [done|].
  apply locate_inr in Hloc as (-> & Hi & _).
  destruct (nonEmpty _); [done|]. simpl.
  unfold save. rewrite preSave_atMostOne; by apply PUT_steps_atMostOne.
Qed.

Lemma DELETE_atMostOne session user addressId modified :
  docHolds atMostOneDefault user ->
  docHolds atMostOneDefault (DELETE isValid session user addressId modified).2.
Proof.
  intros H. unfold DELETE, DELETE_try.
  destruct (locate isValid session user addressId)
    as [r | [l i]] eqn:Hloc; [done|].
  apply locate_inr in Hloc as (-> & Hi & _).
  destruct (l !! i) as [a|] eqn:Ha; [|done]. simpl.
  unfold save.
  rewrite preSave_atMostOne; by apply (spliceAddress_atMostOne i l a).
Qed.

Lemma DELETE_valid session user addressId modified :
  docHolds validAddresses user ->
  docHolds validAddresses (DELETE isValid session user addressId modified).2.
Proof.
  intros H. unfold DELETE, DELETE_try.
  destruct (locate isValid session user addressId)
    as [r | [l i]] eqn:Hloc; [done|].
  apply locate_inr in Hloc as (-> & Hi & _).
  destruct (l !! i) as [a|] eqn:Ha; [|done]. simpl.
  unfold save.
  rewrite preSave_atMostOne; by apply (spliceAddress_valid i l a).
Qed.

(** Whatever the requests, a list that starts with at most one default
    address never comes to hold two. *)
Lemma run_atMostOne rs user :
  docHolds atMostOneDefault user ->
  docHolds atMostOneDefault (run isValid user rs).
Proof.
  unfold run. revert user. induction rs as [|r rs IH]; intros user H; [done|].
  simpl. apply IH. destruct r; simpl.
  - by apply POST_atMostOne.
  - by apply PUT_atMostOne.
  - by apply DELETE_atMostOne.
Qed.

(** Additions and removals keep the whole invariant. *)
Lemma run_valid_without_update rs user :
  forallb (fun r => negb (isUpdate r)) rs = true ->
  docHolds validAddresses user ->
  docHolds validAddresses (run isValid user rs).
Proof.
  unfold run. revert user.
  induction rs as [|r rs IH]; intros user Hrs H; [done|].
  simpl in *. apply andb_prop in Hrs as [Hr Hrs].
  apply IH; [done|]. destruct r; simpl; [|done|].
  - by apply POST_valid.
  - by apply DELETE_valid.
Qed.

End AddressInvariant.

(** ** The address handlers on given requests *)

Lemma POST_accepted session l body newId modified s c st z :
  noSession session = false ->
  Req.street body = Some s -> Req.city body = Some c ->
  Req.state body = Some st -> Req.zipCode body = Some z ->
  validateAddressData
    (Partial.mk (Some s) (Some c) (Some st) (Some z)
       (Some (default (js "Bangladesh") (Req.country body)))
       (Some (default (js "home") (Req.label body))) None) = [] ->
  POST session (Some l) body newId modified =
  let new :=
    mkAddress newId (trim s) (trim c) (trim st) (trim z)
      (trim (default (js "Bangladesh") (Req.country body)))
      (default false (Req.isDefault body))
      (default (js "home") (Req.label body))
      (Some (trim (default (js "") (Req.phone body)))) in
  let l' := save modified (pushAddress new l) in
  (Success 201 "Address added successfully" (transformAddresses l'),
   Some l').
Proof.
  intros Hs H1 H2 H3 H4 Hval. unfold POST, POST_try.
  by rewrite Hs, H1, H2, H3, H4, Hval.
Qed.

(** C4. On an empty list, a request that passes the checks is answered
    with success, and the address it stores, the only one of the list, is
    the default whatever [isDefault] the body carries. *)
Theorem POST_first_address_is_default
    session body newId modified s c st z :
  noSession session = false ->
  Req.street body = Some s -> Req.city body = Some c ->
  Req.state body = Some st -> Req.zipCode body = Some z ->
  validateAddressData
    (Partial.mk (Some s) (Some c) (Some st) (Some z)
       (Some (default (js "Bangladesh") (Req.country body)))
       (Some (default (js "home") (Req.label body))) None) = [] ->
  let stored :=
    mkAddress newId (trim s) (trim c) (trim st) (trim z)
      (trim (default (js "Bangladesh") (Req.country body)))
      true
      (default (js "home") (Req.label body))
      (Some (trim (default (js "") (Req.phone body)))) in
  POST session (Some []) body newId modified
    = (Success 201 "Address added successfully" [stored], Some [stored]).
Proof.
  intros Hs H1 H2 H3 H4 Hval stored.
  rewrite (POST_accepted session [] body newId modified s c st z)
    by done.
  cbv zeta. unfold pushAddress. rewrite andb_false_r. simpl.
  fold stored. unfold save.
  rewrite preSave_atMostOne by (unfold atMostOneDefault; cbn; lia).
  done.
Qed.

(** Whatever the request, nothing but a default address enters an empty
    list. *)
Lemma POST_empty_list_outcome session body newId modified :
  (POST session (Some []) body newId modified).2 = Some [] \/
  exists a, (POST session (Some []) body newId modified).2 = Some [a] /\
            isDefault a = true.
Proof.
  unfold POST, POST_try.
  destruct (noSession session); [by left|].
  destruct (nonEmpty _); [by left|].
  destruct (Req.street body), (Req.city body), (Req.state body),
    (Req.zipCode body); simpl; try (by left).
  right. unfold pushAddress. rewrite andb_false_r. simpl. unfold save.
  rewrite preSave_atMostOne by (unfold atMostOneDefault; cbn; lia).
  eauto.
Qed.

Lemma POST_first_address_is_default_witness :
  POST customer (Some []) (newBody "9000") idNew true
  = (Success 201 "Address added successfully" [newAddress], Some [newAddress]).
Proof.
  exact (POST_first_address_is_default customer (newBody "9000") idNew true
           (js " 3 Hill Road ") (js "Khulna") (js "Khulna") (js "9000")
           eq_refl eq_refl eq_refl eq_refl eq_refl eq_refl).
Defined.

Lemma PUT_default_moves_single_flag_witness :
  PUT objectIdIsValid customer (Some [homeAddress; workAddress])
      (defaultBody idWork true) true
  = (Success 200 "Address updated successfully"
       [set_isDefault false homeAddress; set_isDefault true workAddress],
     Some [set_isDefault false homeAddress; set_isDefault true workAddress]).
Proof.
  exact (proj1 (PUT_default_moves_single_flag objectIdIsValid customer
           [homeAddress; workAddress] (defaultBody idWork true) idWork
           1%nat 0%nat homeAddress true
           eq_refl eq_refl eq_refl eq_refl eq_refl eq_refl eq_refl eq_refl
           eq_refl eq_refl ltac:(discriminate))).
Defined.

Lemma DELETE_default_promotes_first_witness :
  DELETE objectIdIsValid customer (Some [homeAddress; workAddress])
         (Some idHome) true
  = (Success 200 "Address deleted successfully"
       [set_isDefault true workAddress],
     Some [set_isDefault true workAddress]).
Proof.
  exact (proj1 (DELETE_default_promotes_first objectIdIsValid customer
           [homeAddress; workAddress] idHome 0%nat homeAddress true
           eq_refl eq_refl eq_refl eq_refl eq_refl eq_refl
           ltac:(unfold atMostOneDefault; vm_compute; lia))).
Defined.

(** C1 at the request that breaks it: taking the flag away from the only
    address of a valid list is accepted, and leaves a list that is not
    empty and has no default address. *)
Example PUT_unsets_the_only_default :
  validAddresses [homeAddress] /\
  PUT objectIdIsValid customer (Some [homeAddress])
      (defaultBody idHome false) true
  = (Success 200 "Address updated successfully"
       [set_isDefault false homeAddress],
     Some [set_isDefault false homeAddress]) /\
  countDefault [set_isDefault false homeAddress] = 0%nat /\
  ~ validAddresses [set_isDefault false homeAddress].
Proof.
  repeat split.
  - unfold atMostOneDefault. vm_compute. lia.
  - intros [_ H]. by specialize (H ltac:(done)).
Qed.

(** C5 as stated fails: an identifier that is not an object identifier
    names no address of the list, and both handlers answer it with 400,
    not with NotFound; so they do when no identifier is sent. *)
Lemma malformed_id_is_not_NotFound :
  forallb (fun a => negb (jsstring_eqb (_id a) (js "not-an-id")))
    [homeAddress; workAddress] = true /\
  (PUT objectIdIsValid customer (Some [homeAddress; workAddress])
       (defaultBody (js "not-an-id") true) true).1
    = Failure 400 "Invalid address ID format" /\
  kindOf (PUT objectIdIsValid customer (Some [homeAddress; workAddress])
            (defaultBody (js "not-an-id") true) true).1 <> Some NotFound /\
  (DELETE objectIdIsValid customer (Some [homeAddress; workAddress])
          (Some (js "not-an-id")) true).1
    = Failure 400 "Invalid address ID format" /\
  kindOf (DELETE objectIdIsValid customer (Some [homeAddress; workAddress])
            (Some (js "not-an-id")) true).1 <> Some NotFound /\
  (DELETE objectIdIsValid customer (Some [homeAddress; workAddress])
          None true).1
    = Failure 400 "Address ID is required".
Proof. repeat split; done. Qed.

Lemma unknown_address_rejected_witness :
  (kindOf (PUT objectIdIsValid customer (Some [homeAddress; workAddress])
             (defaultBody idNew true) true).1 = Some NotFound /\
   (PUT objectIdIsValid customer (Some [homeAddress; workAddress])
        (defaultBody idNew true) true).2 = Some [homeAddress; workAddress]) /\
  (kindOf (DELETE objectIdIsValid customer (Some [homeAddress; workAddress])
             (Some idNew) true).1 = Some NotFound /\
   (DELETE objectIdIsValid customer (Some [homeAddress; workAddress])
        (Some idNew) true).2 = Some [homeAddress; workAddress]).
Proof.
  apply (unknown_address_rejected objectIdIsValid customer
           (Some [homeAddress; workAddress]) (defaultBody idNew true)
           (Some idNew) true).
  - reflexivity.
  - intros id l a [= <-] [= <-] Ha.
    apply list_elem_of_In in Ha. simpl in Ha.
    destruct Ha as [<- | [<- | []]]; vm_compute; discriminate.
  - reflexivity.
Defined.

(** C6 as stated fails: a request without a country is not refused; the
    country defaults to Bangladesh and the address is stored. *)
Lemma POST_without_country_is_accepted :
  Req.country (newBody "9000") = None /\
  POST customer (Some []) (newBody "9000") idNew true
  = (Success 201 "Address added successfully" [newAddress], Some [newAddress])
  /\ country newAddress = js "Bangladesh"
  /\ kindOf (POST customer (Some []) (newBody "9000") idNew true).1
     <> Some ValidationFailure.
Proof. repeat split; done. Qed.

Lemma POST_malformed_rejected_witness :
  malformedBody (newBody "12A45") = true /\
  kindOf (POST customer (Some [homeAddress]) (newBody "12A45") idNew true).1
    = Some ValidationFailure /\
  (POST customer (Some [homeAddress]) (newBody "12A45") idNew true).2
    = Some [homeAddress].
Proof.
  split; [reflexivity|].
  exact (POST_malformed_rejected customer (Some [homeAddress])
           (newBody "12A45") idNew true eq_refl eq_refl).
Defined.

(** A request without a street passes [validateAddressData], which only
    looks at the fields that are present, and then fails on [street!.trim()]:
    the answer is 500, and nothing is stored. *)
Example POST_without_street :
  POST customer (Some [homeAddress]) noStreetBody idNew true
  = (Failure 500 "Cannot read properties of undefined (reading 'trim')",
     Some [homeAddress]).
Proof. reflexivity. Qed.

(** The scenarios of the specification. *)
Example scenario_remove_default :
  (DELETE objectIdIsValid customer (Some [homeAddress; workAddress])
          (Some idHome) true).2
  = Some [set_isDefault true workAddress].
Proof. reflexivity. Qed.

Example scenario_first_address :
  isDefault <$> default [] (POST customer (Some []) (newBody "9000") idNew true).2
  = [true].
Proof. reflexivity. Qed.

Example scenario_move_default :
  isDefault <$> default []
    (PUT objectIdIsValid customer (Some [homeAddress; workAddress])
         (defaultBody idWork true) true).2
  = [false; true].
Proof. reflexivity. Qed.

(** ** Products *)

Lemma negative_true q : (q < 0)%Q -> negative q = true.
Proof.
  intros H. unfold negative. apply negb_true_iff.
  destruct (Qle_bool 0 q) eqn:E; [|done].
  apply Qle_bool_iff in E. by apply Qlt_not_le in H.
Qed.

Lemma negative_nonzero q : (q < 0)%Q -> Qeq_bool q 0 = false.
Proof.
  intros H. destruct (Qeq_bool q 0) eqn:E; [|done].
  apply Qeq_bool_iff in E. rewrite E in H. by apply Qlt_irrefl in H.
Qed.

(** C10. A request to create a product whose price is zero is answered
    with the missing-fields error, whatever its other fields, and the
    catalogue is left as it was. *)
Theorem POST_product_zero_price_rejected products body newId q :
  ProductBody.price body = Some q -> (q == 0)%Q ->
  POST_product products body newId
  = (ProductError 400
       "Missing required fields: productId, name, description, price, category, and image are required",
     products).
Proof.
  intros Hp Hq. unfold POST_product, POST_product_try. rewrite Hp.
  assert (notNum (Some q) = true) as -> by (by apply Qeq_bool_iff).
  by rewrite !orb_true_r.
Qed.

Lemma POST_product_zero_price_rejected_witness :
  POST_product [] (productBody 0) idProduct
  = (ProductError 400
       "Missing required fields: productId, name, description, price, category, and image are required",
     []).
Proof.
  exact (POST_product_zero_price_rejected [] (productBody 0) idProduct 0%Q
           eq_refl (Qeq_refl 0)).
Defined.

(** The update of a product refuses a negative price before it reaches
    the catalogue. *)
Lemma PUT_product_negative_price_rejected isValid products id body q :
  ProductBody.price body = Some q -> (q < 0)%Q ->
  productKindOf (PUT_product isValid products id body).1
    = Some ValidationFailure /\
  (PUT_product isValid products id body).2 = products.
Proof.
  intros Hp Hq. unfold PUT_product, PUT_product_try. rewrite Hp.
  rewrite (negative_true q Hq), (negative_nonzero q Hq). simpl.
  destruct (falsy id); [done|].
  by destruct (ProductBody.name body) as [n|]; [destruct (blank n)|].
Qed.

(** The creation has no such check: with its required fields present and
    an identifier that is free, a product of negative price is created. *)
Lemma POST_product_negative_price_created products body newId pid n d q c i :
  ProductBody.productId body = Some pid -> falsy pid = false ->
  ProductBody.name body = Some n -> falsy n = false ->
  ProductBody.description body = Some d -> falsy d = false ->
  ProductBody.price body = Some q -> (q < 0)%Q ->
  ProductBody.category body = Some c -> falsy c = false ->
  ProductBody.image body = Some i -> falsy i = false ->
  hasProductId pid products = false ->
  exists p,
    POST_product products body newId = (ProductJson 201 p, push products p) /\
    price p = q.
Proof.
  intros Hpid Hpid' Hn Hn' Hd Hd' Hq Hq' Hc Hc' Hi Hi' Hfree.
  unfold POST_product, POST_product_try.
  rewrite Hpid, Hn, Hd, Hq, Hc, Hi. simpl.
  rewrite Hpid', Hn', Hd', Hc', Hi', (negative_nonzero q Hq'), Hfree. simpl.
  unfold create. simpl. rewrite Hfree. simpl. eauto.
Qed.

(** C9 at a request that breaks it: a product of price -5 is created. *)
Example POST_product_negative_price :
  exists p,
    POST_product [] (productBody (-5)) idProduct = (ProductJson 201 p, [p]) /\
    price p = (-5)%Q /\
    productKindOf (POST_product [] (productBody (-5)) idProduct).1 = None.
Proof. eexists. repeat split. Qed.

(** A product identifier already in use is answered with 400 and a message
    of its own by the creation, and with 409 by the update. *)
Example POST_product_duplicate :
  exists p,
    POST_product [] (productBody 5) idProduct = (ProductJson 201 p, [p]) /\
    POST_product [p] (productBody 5) idProduct
    = (ProductError 400 "Product ID already exists.", [p]).
Proof. eexists. split; reflexivity. Qed.

(** ** Orders *)


Lemma findByIdAndUpdate_found runValidators orders id u i o :
  (runValidators = true ->
   forall s, OrderUpdate.status u = Some s -> includes validStatuses s = true) ->
  findIndex (fun o => jsstring_eqb (o_id o) id) orders = Z.of_nat i ->
  orders !! i = Some o ->
  findByIdAndUpdate runValidators orders id u
  = ret (Some (applyUpdate u o), <[i := applyUpdate u o]> orders).
Proof.
  intros Hv Hi Ho. unfold findByIdAndUpdate.
  assert (runValidators
          && match OrderUpdate.status u with
             | Some s => negb (includes validStatuses s)
             | None => false
             end = false) as ->.
  { destruct runValidators; [|done]. cbn [andb].
    destruct (OrderUpdate.status u) as [s|]; [|done].
    by rewrite (Hv eq_refl s eq_refl). }
  rewrite Hi. destruct (Z.eqb_spec (Z.of_nat i) (-1)); [lia|].
  by rewrite Nat2Z.id, Ho.
Qed.


(** The cancellation overwrites the status and the time of the update,
    and leaves the time of the last status change as it was. *)
Lemma DELETE_order_keeps_status_time isValid orders id i o now :
  isValid id = true ->
  findIndex (fun o => jsstring_eqb (o_id o) id) orders = Z.of_nat i ->
  orders !! i = Some o ->
  exists o',
    DELETE_order isValid orders id now
    = (OrderJson 200 o', <[i := o']> orders) /\
    status o' = js "cancelled" /\ updatedAt o' = now /\
    statusUpdatedAt o' = statusUpdatedAt o.
Proof.
  intros Hv Hi Ho. unfold DELETE_order, DELETE_order_try.
  rewrite Hv. simpl.
  rewrite (findByIdAndUpdate_found false orders id _ i o); try done.
  simpl. eauto.
Qed.

(** C8 at the request that breaks it: cancelling at time 5000 an order
    whose status last changed at time 1000 changes the status and the
    update time, and the recorded time of the status change stays 1000;
    shipping it at the same time records 5001. *)
Example DELETE_order_status_time_not_recorded :
  DELETE_order objectIdIsValid [confirmedOrder] idOrder 5000
  = (OrderJson 200 (mkOrder idOrder (js "cancelled") None 5000 (Some 1000)),
     [mkOrder idOrder (js "cancelled") None 5000 (Some 1000)]) /\
  PUT_order objectIdIsValid [confirmedOrder] idOrder
    (OrderBody.mk (Some (js "shipped")) None) 5000 5001
  = (OrderJson 200 (mkOrder idOrder (js "shipped") None 5000 (Some 5001)),
     [mkOrder idOrder (js "shipped") None 5000 (Some 5001)]).
Proof. split; reflexivity. Qed.

(** * Further properties *)

(** ** [trim] *)

Lemma trimStart_fix s :
  match s with [] => True | c :: _ => isWhiteSpace c = false end ->
  trimStart s = s.
Proof. destruct s as [|c r]; [done|]. simpl. by intros ->. Qed.

Lemma trimStart_head s :
  match trimStart s with [] => True | c :: _ => isWhiteSpace c = false end.
Proof.
  induction s as [|c r IH]; [done|]. simpl.
  destruct (isWhiteSpace c) eqn:E; [done|]. simpl. done.
Qed.

(** Stripping the front of a string that ends with a character which is
    not white space keeps that end. *)
Lemma trimStart_snoc s c :
  isWhiteSpace c = false -> exists x, trimStart (s ++ [c]) = x ++ [c].
Proof.
  intros Hc. induction s as [|d r IH]; simpl.
  - rewrite Hc. by exists [].
  - destruct (isWhiteSpace d); [done|]. by exists (d :: r).
Qed.

Lemma trimEnd_head s :
  match s with [] => True | c :: _ => isWhiteSpace c = false end ->
  match trimEnd s with [] => True | c :: _ => isWhiteSpace c = false end.
Proof.
  destruct s as [|c r]; [done|]. intros Hc. unfold trimEnd. simpl.
  destruct (trimStart_snoc (rev r) c Hc) as [x ->].
  by rewrite rev_app_distr.
Qed.

Lemma trimEnd_fix s :
  match rev s with [] => True | c :: _ => isWhiteSpace c = false end ->
  trimEnd s = s.
Proof.
  intros H. unfold trimEnd. by rewrite (trimStart_fix _ H), rev_involutive.
Qed.

Lemma trim_idempotent s : trim (trim s) = trim s.
Proof.
  unfold trim.
  pose proof (trimEnd_head (trimStart s) (trimStart_head s)) as Hhead.
  rewrite (trimStart_fix _ Hhead).
  apply trimEnd_fix. unfold trimEnd. rewrite rev_involutive.
  apply trimStart_head.
Qed.

Lemma blank_trim s : blank s = false -> blank (trim s) = false.
Proof.
  unfold blank. rewrite trim_idempotent.
  intros H. apply orb_false_iff in H as [_ H]. by rewrite H.
Qed.

(** ** Stored addresses stay well-formed *)

Lemma storedOk_set_isDefault b a : storedOk a -> storedOk (set_isDefault b a).
Proof. by destruct a. Qed.

Lemma Forall_imap_keep {A} (P : A -> Prop) (f : nat -> A -> A) l :
  (forall j a, P a -> P (f j a)) -> Forall P l -> Forall P (imap f l).
Proof.
  intros Hf Hl. apply Forall_lookup. intros j b.
  rewrite list_lookup_imap. rewrite Forall_lookup in Hl.
  destruct (l !! j) as [a|] eqn:Ha; [|done]. simpl. intros [= <-].
  apply Hf. by apply (Hl j).
Qed.

Lemma preSave_storedOk modified l :
  Forall storedOk l -> Forall storedOk (preSave modified l).
Proof.
  intros H. unfold preSave. destruct modified; [|done].
  destruct (1 <? _)%nat; [|done]. rewrite resetLoop_spec.
  apply Forall_imap_keep; [|done]. intros j a Ha.
  case_bool_decide; [by apply storedOk_set_isDefault | done].
Qed.

Lemma pushAddress_storedOk new l :
  storedOk new -> Forall storedOk l -> Forall storedOk (pushAddress new l).
Proof.
  intros Hnew Hl. unfold pushAddress, push. apply Forall_app. split.
  - destruct (isDefault new && nonEmpty l); [|done].
    apply Forall_fmap. eapply Forall_impl; [done|].
    intros a Ha. by apply storedOk_set_isDefault.
  - apply Forall_singleton.
    destruct (_ =? 0)%nat; [by apply storedOk_set_isDefault | done].
Qed.

Lemma spliceAddress_storedOk wasDefault i l :
  Forall storedOk l -> Forall storedOk (spliceAddress wasDefault i l).
Proof.
  intros Hl. unfold spliceAddress, splice1.
  assert (Forall storedOk (delete i l)) as Hd by (by apply Forall_delete).
  destruct (wasDefault && nonEmpty (delete i l)); [|done].
  apply Forall_alter; [done|]. intros a _ Ha. by apply storedOk_set_isDefault.
Qed.

Lemma changeDefault_storedOk d i l :
  Forall storedOk l -> Forall storedOk (setStep d i (clearStep d i l)).
Proof.
  intros Hl.
  assert (Forall storedOk (clearStep d i l)) as Hc.
  { unfold clearStep. destruct d as [d|]; [|done].
    destruct (d && otherIsDefault i l); [|done].
    apply Forall_imap_keep; [|done]. intros j a Ha.
    destruct (negb _); [by apply storedOk_set_isDefault | done]. }
  unfold setStep. destruct d as [d|]; [|done].
  apply Forall_alter; [done|]. intros a _ Ha. by apply storedOk_set_isDefault.
Qed.

(** The fields of [updateFields], one by one. *)
Lemma updateFields_street body a :
  street (updateFields body a) = from_option trim (street a) (Req.street body).
Proof.
  unfold updateFields.
  by destruct (Req.phone body), (Req.label body), (Req.country body),
    (Req.zipCode body), (Req.state body), (Req.city body), (Req.street body).
Qed.

Lemma updateFields_city body a :
  city (updateFields body a) = from_option trim (city a) (Req.city body).
Proof.
  unfold updateFields.
  by destruct (Req.phone body), (Req.label body), (Req.country body),
    (Req.zipCode body), (Req.state body), (Req.city body), (Req.street body).
Qed.

Lemma updateFields_state body a :
  state (updateFields body a) = from_option trim (state a) (Req.state body).
Proof.
  unfold updateFields.
  by destruct (Req.phone body), (Req.label body), (Req.country body),
    (Req.zipCode body), (Req.state body), (Req.city body), (Req.street body).
Qed.

Lemma updateFields_zipCode body a :
  zipCode (updateFields body a)
  = from_option trim (zipCode a) (Req.zipCode body).
Proof.
  unfold updateFields.
  by destruct (Req.phone body), (Req.label body), (Req.country body),
    (Req.zipCode body), (Req.state body), (Req.city body), (Req.street body).
Qed.

Lemma updateFields_country body a :
  country (updateFields body a)
  = from_option trim (country a) (Req.country body).
Proof.
  unfold updateFields.
  by destruct (Req.phone body), (Req.label body), (Req.country body),
    (Req.zipCode body), (Req.state body), (Req.city body), (Req.street body).
Qed.

Lemma updateFields_label body a :
  label (updateFields body a) = default (label a) (Req.label body).
Proof.
  unfold updateFields.
  by destruct (Req.phone body), (Req.label body), (Req.country body),
    (Req.zipCode body), (Req.state body), (Req.city body), (Req.street body).
Qed.

Lemma required_trim_ok field old :
  blankField field = false ->
  blank old = false /\ trim old = old ->
  blank (from_option trim old field) = false /\
  trim (from_option trim old field) = from_option trim old field.
Proof.
  destruct field as [v|]; simpl; [|done]. intros Hv _.
  split; [by apply blank_trim | apply trim_idempotent].
Qed.

Lemma updateFields_storedOk body a :
  malformedBody body = false -> storedOk a -> storedOk (updateFields body a).
Proof.
  unfold malformedBody. rewrite !orb_false_iff.
  intros (((((Hs & Hc) & Hst) & Hz) & Hco) & Hl).
  intros (Ha1 & Ha2 & Ha3 & Ha4 & Ha5 & Ha6). unfold storedOk.
  rewrite updateFields_street, updateFields_city, updateFields_state,
    updateFields_country, updateFields_zipCode, updateFields_label.
  repeat split; try (by apply required_trim_ok).
  - destruct (Req.zipCode body) as [z|]; simpl in *; [|done].
    apply orb_false_iff in Hz as [_ Hz]. by apply negb_false_iff in Hz.
  - destruct (Req.label body) as [l|]; simpl in *; [|done].
    by apply negb_false_iff in Hl.
Qed.

Lemma malformedBody_partial body :
  malformed
    (Partial.mk (Req.street body) (Req.city body) (Req.state body)
       (Req.zipCode body) (Req.country body) (Req.label body)
       (Req.phone body)) = malformedBody body.
Proof. done. Qed.

Lemma POST_storedOk session user body newId modified :
  docHolds (Forall storedOk) user ->
  docHolds (Forall storedOk) (POST session user body newId modified).2.
Proof.
  intros H. unfold POST, POST_try.
  destruct (noSession session); [done|].
  destruct (validateAddressData _) as [|e es] eqn:Hval; [|done].
  apply validateAddressData_nil in Hval. unfold malformed in Hval.
  simpl in Hval. rewrite !orb_false_iff in Hval.
  destruct Hval as (((((Hs & Hc) & Hst) & Hz) & Hco) & Hl).
  simpl. destruct user as [l|]; [|done].
  destruct (Req.street body) as [s|], (Req.city body) as [c|],
    (Req.state body) as [st|], (Req.zipCode body) as [z|]; simpl; try done.
  simpl in *. unfold save.
  apply preSave_storedOk, pushAddress_storedOk; [|done].
  apply orb_false_iff in Hz as [Hz1 Hz2]. apply negb_false_iff in Hz2.
  apply negb_false_iff in Hl.
  repeat split; simpl; try (by apply blank_trim);
    try (by apply trim_idempotent); done.
Qed.

Lemma PUT_storedOk isValid session user body modified :
  docHolds (Forall storedOk) user ->
  docHolds (Forall storedOk) (PUT isValid session user body modified).2.
Proof.
  intros H. unfold PUT, PUT_try.
  destruct (locate isValid session user (Req.addressId body))
    as [r | [l i]] eqn:Hloc; [done|].
  apply locate_inr in Hloc as (-> & Hi & _).
  destruct (validateAddressData _) as [|e es] eqn:Hval; [|done].
  apply validateAddressData_nil in Hval. rewrite malformedBody_partial in Hval.
  simpl. unfold save.
  apply preSave_storedOk, changeDefault_storedOk.
  rewrite assignFields_alter. apply Forall_alter; [done|].
  intros a _ Ha. by apply updateFields_storedOk.
Qed.

Lemma DELETE_storedOk isValid session user addressId modified :
  docHolds (Forall storedOk) user ->
  docHolds (Forall storedOk) (DELETE isValid session user addressId modified).2.
Proof.
  intros H. unfold DELETE, DELETE_try.
  destruct (locate isValid session user addressId)
    as [r | [l i]] eqn:Hloc; [done|].
  apply locate_inr in Hloc as (-> & Hi & _).
  destruct (l !! i) as [a|] eqn:Ha; [|done]. simpl. unfold save.
  by apply preSave_storedOk, spliceAddress_storedOk.
Qed.

(** X1. Whatever requests the address book receives, in whatever order,
    every address it stores keeps the shape that the schema requires:
    street, city, state and country trimmed and not blank, a zip code made
    of digits, and a label among home, work and other. *)
Theorem run_storedOk isValid rs user :
  docHolds (Forall storedOk) user ->
  docHolds (Forall storedOk) (run isValid user rs).
Proof.
  unfold run. revert user. induction rs as [|r rs IH]; intros user H; [done|].
  simpl. apply IH. destruct r; simpl.
  - by apply POST_storedOk.
  - by apply PUT_storedOk.
  - by apply DELETE_storedOk.
Qed.

Lemma run_storedOk_witness :
  docHolds (Forall storedOk)
    (run objectIdIsValid (Some [homeAddress; workAddress]) sampleRequests).
Proof.
  apply (run_storedOk objectIdIsValid sampleRequests
           (Some [homeAddress; workAddress])).
  simpl. repeat constructor.
Defined.

(** ** Responses and the store *)


(** ** What the handlers touch *)

Lemma erase_set b a : set_isDefault false (set_isDefault b a) = set_isDefault false a.
Proof. by destruct a. Qed.

Lemma eraseDefault_imap (g : nat -> UserAddress -> UserAddress) l :
  (forall j a, set_isDefault false (g j a) = set_isDefault false a) ->
  eraseDefault (imap g l) = eraseDefault l.
Proof.
  intros Hg. unfold eraseDefault. apply list_eq. intros j.
  rewrite !list_lookup_fmap, list_lookup_imap.
  destruct (l !! j) as [a|]; [|done]. simpl. by rewrite Hg.
Qed.

Lemma eraseDefault_alter_set b i l :
  eraseDefault (alter (set_isDefault b) i l) = eraseDefault l.
Proof.
  unfold eraseDefault. apply list_eq. intros j.
  rewrite !list_lookup_fmap, lookup_alter_set.
  case_bool_decide; [|done]. destruct (l !! j) as [a|]; [|done].
  simpl. by rewrite erase_set.
Qed.

Lemma eraseDefault_clear l : eraseDefault (set_isDefault false <$> l) = eraseDefault l.
Proof.
  unfold eraseDefault. rewrite <- list_fmap_compose.
  apply list_fmap_ext. intros j a _. simpl. apply erase_set.
Qed.

Lemma eraseDefault_preSave modified l :
  eraseDefault (preSave modified l) = eraseDefault l.
Proof.
  unfold preSave. destruct modified; [|done].
  destruct (1 <? _)%nat; [|done]. rewrite resetLoop_spec.
  apply eraseDefault_imap. intros j a.
  case_bool_decide; [apply erase_set | done].
Qed.

Lemma eraseDefault_changeDefault d i l :
  eraseDefault (setStep d i (clearStep d i l)) = eraseDefault l.
Proof.
  assert (eraseDefault (clearStep d i l) = eraseDefault l) as Hc.
  { unfold clearStep. destruct d as [d|]; [|done].
    destruct (d && otherIsDefault i l); [|done].
    apply eraseDefault_imap. intros j a.
    destruct (negb _); [apply erase_set | done]. }
  unfold setStep. destruct d as [d|]; [|done].
  by rewrite eraseDefault_alter_set.
Qed.

Lemma updateFields_set b body a :
  updateFields body (set_isDefault b a) = set_isDefault b (updateFields body a).
Proof.
  unfold updateFields.
  by destruct (Req.phone body), (Req.label body), (Req.country body),
    (Req.zipCode body), (Req.state body), (Req.city body), (Req.street body).
Qed.

Lemma eraseDefault_assignFields body i l :
  eraseDefault (assignFields body i l) = assignFields body i (eraseDefault l).
Proof.
  rewrite !assignFields_alter. unfold eraseDefault.
  apply list_eq. intros j. rewrite list_lookup_fmap.
  destruct (decide (j = i)) as [->|Hne].
  - rewrite !list_lookup_alter_eq, list_lookup_fmap.
    destruct (l !! i) as [a|]; [|done]. simpl. by rewrite updateFields_set.
  - rewrite !list_lookup_alter_ne by done. by rewrite list_lookup_fmap.
Qed.

Section Touch.

Variable isValid : jsstring -> bool.


Lemma DELETE_erased session l id i modified :
  noSession session = false -> falsy id = false -> isValid id = true ->
  findIndex (fun addr => jsstring_eqb (_id addr) id) l = Z.of_nat i ->
  exists l',
    DELETE isValid session (Some l) (Some id) modified
    = (Success 200 "Address deleted successfully" l', Some l') /\
    eraseDefault l' = delete i (eraseDefault l).
Proof.
  intros Hs Hf Hv Hi.
  pose proof Hi as Hfound.
  apply findIndex_Some in Hfound as (a & Ha & _).
  rewrite (DELETE_located isValid session (Some l) (Some id) modified l i a);
    [|by apply locate_found|done].
  cbv zeta. rewrite transformAddresses_id. eexists. split; [done|].
  unfold save, spliceAddress, splice1. rewrite eraseDefault_preSave.
  destruct (isDefault a && nonEmpty (delete i l));
    rewrite ?eraseDefault_alter_set; unfold eraseDefault;
    by rewrite list_fmap_delete.
Qed.

(** X4. A successful removal takes out the address found and no other:
    apart from the default flags, what is returned and stored is the former
    list without the element at the index found, in the same order. *)
Theorem DELETE_removes_only_target session l id i modified :
  noSession session = false -> falsy id = false -> isValid id = true ->
  findIndex (fun addr => jsstring_eqb (_id addr) id) l = Z.of_nat i ->
  exists l',
    DELETE isValid session (Some l) (Some id) modified
    = (Success 200 "Address deleted successfully" l', Some l') /\
    S (length l') = length l /\
    eraseDefault l' = delete i (eraseDefault l).
Proof.
  intros Hs Hf Hv Hi.
  destruct (DELETE_erased session l id i modified Hs Hf Hv Hi)
    as (l' & Heq & Herase).
  exists l'. split; [done|]. split; [|done].
  apply findIndex_Some in Hi as (a & Ha & _).
  apply (f_equal length) in Herase. unfold eraseDefault in Herase.
  rewrite length_fmap in Herase. rewrite Herase.
  apply lookup_lt_Some in Ha.
  rewrite length_delete; rewrite ?length_fmap; [lia|].
  rewrite list_lookup_fmap. destruct (l !! i) eqn:E; [done|].
  apply lookup_ge_None in E. lia.
Qed.

Lemma findIndex_ext {A} (p q : A -> bool) l :
  (forall a, a ∈ l -> p a = q a) -> findIndex p l = findIndex q l.
Proof.
  unfold findIndex. generalize 0. induction l as [|a l IH]; intros k H; [done|].
  simpl. rewrite (H a) by apply list_elem_of_here.
  destruct (q a); [done|]. apply IH. intros b Hb. apply H. by apply list_elem_of_further.
Qed.

Lemma findIndex_fmap {A B} (f : A -> B) (p : B -> bool) l :
  findIndex p (f <$> l) = findIndex (fun a => p (f a)) l.
Proof.
  unfold findIndex. generalize 0. induction l as [|a l IH]; intros k; [done|].
  simpl. destruct (p (f a)); [done|]. apply IH.
Qed.

(** The index found depends on the identifiers only. *)
Lemma findIndex_ids id l l' :
  _id <$> l = _id <$> l' ->
  findIndex (fun addr => jsstring_eqb (_id addr) id) l
  = findIndex (fun addr => jsstring_eqb (_id addr) id) l'.
Proof.
  intros H.
  rewrite <- (findIndex_fmap _id (fun x => jsstring_eqb x id) l).
  rewrite <- (findIndex_fmap _id (fun x => jsstring_eqb x id) l').
  by rewrite H.
Qed.

Lemma eraseDefault_ids l : _id <$> eraseDefault l = _id <$> l.
Proof.
  unfold eraseDefault. rewrite <- list_fmap_compose.
  apply list_fmap_ext. by intros j [] _.
Qed.

(** X5. After a successful removal, on a list whose identifiers are all
    different, the identifier removed names no address any more: removing
    it again, or updating it, is answered with NotFound and changes
    nothing. *)
Theorem DELETE_twice_NotFound session l id i body modified modified' :
  noSession session = false -> falsy id = false -> isValid id = true ->
  findIndex (fun addr => jsstring_eqb (_id addr) id) l = Z.of_nat i ->
  NoDup (_id <$> l) ->
  Req.addressId body = Some id ->
  let doc := (DELETE isValid session (Some l) (Some id) modified).2 in
  (DELETE isValid session doc (Some id) modified'
   = (Failure 404 "Address not found", doc)) /\
  (PUT isValid session doc body modified'
   = (Failure 404 "Address not found", doc)).
Proof.
  intros Hs Hf Hv Hi Hnd Hbody doc.
  destruct (DELETE_erased session l id i modified Hs Hf Hv Hi)
    as (l' & Heq & Herase).
  unfold doc. rewrite Heq. simpl.
  assert (findIndex (fun addr => jsstring_eqb (_id addr) id) l' = -1) as Hnone.
  { apply (f_equal (fmap _id)) in Herase.
    rewrite eraseDefault_ids in Herase. unfold eraseDefault in Herase.
    rewrite list_fmap_delete, <- list_fmap_compose in Herase.
    assert (_id <$> l' = delete i (_id <$> l)) as Hids.
    { exact Herase. }
    apply findIndex_None. intros j b Hb.
    unfold jsstring_eqb. apply bool_decide_eq_false. intros Heqid.
    assert ((_id <$> l') !! j = Some id) as Hj
      by (by rewrite list_lookup_fmap, Hb; simpl; rewrite Heqid).
    rewrite Hids in Hj.
    apply findIndex_Some in Hi as (a & Ha & Hida & _).
    unfold jsstring_eqb in Hida. apply bool_decide_eq_true in Hida.
    assert ((_id <$> l) !! i = Some id) as Hi'
      by (by rewrite list_lookup_fmap, Ha; simpl; rewrite Hida).
    destruct (decide (j < i)%nat) as [Hlt|Hge].
    - rewrite list_lookup_delete_lt in Hj by done.
      pose proof (NoDup_lookup _ _ _ _ Hnd Hj Hi'). lia.
    - rewrite list_lookup_delete_ge in Hj by lia.
      pose proof (NoDup_lookup _ _ _ _ Hnd Hj Hi'). lia. }
  unfold DELETE, DELETE_try, PUT, PUT_try, locate.
  by rewrite Hbody, Hs, Hf, Hv, Hnone.
Qed.

Lemma set_set b b' a : set_isDefault b (set_isDefault b' a) = set_isDefault b a.
Proof. by destruct a. Qed.

Lemma updateFields_idem body a :
  updateFields body (updateFields body a) = updateFields body a.
Proof.
  unfold updateFields.
  by destruct (Req.phone body), (Req.label body), (Req.country body),
    (Req.zipCode body), (Req.state body), (Req.city body), (Req.street body).
Qed.

(** The three steps of [PUT] on the list, applied twice, do what they do
    once. *)
Lemma PUT_steps_idem body i l :
  let F l := setStep (Req.isDefault body) i
               (clearStep (Req.isDefault body) i (assignFields body i l)) in
  F (F l) = F l.
Proof.
  intros F. unfold F. destruct (Req.isDefault body) as [[|]|].
  - rewrite !make_default_onlyDefault. apply list_eq. intros j.
    rewrite !onlyDefault_lookup, !assignFields_lookup, !onlyDefault_lookup,
      !assignFields_lookup.
    case_bool_decide; destruct (l !! j) as [a|]; simpl; try done.
    all: by rewrite ?updateFields_set, ?updateFields_idem, ?set_set.
  - simpl. apply list_eq. intros j.
    rewrite !lookup_alter_set, !assignFields_lookup, !lookup_alter_set,
      !assignFields_lookup.
    case_bool_decide; destruct (l !! j) as [a|]; simpl; try done.
    all: by rewrite ?updateFields_set, ?updateFields_idem, ?set_set.
  - simpl. apply list_eq. intros j. rewrite !assignFields_lookup.
    case_bool_decide; destruct (l !! j) as [a|]; simpl; try done.
    all: by rewrite ?updateFields_idem.
Qed.

(** X7. An update is idempotent: on a list with at most one default
    address, sending a successful update a second time is answered as the
    first time and leaves the stored list as the first update left it. *)
Theorem PUT_idempotent session l body id i modified modified' :
  noSession session = false ->
  Req.addressId body = Some id -> falsy id = false -> isValid id = true ->
  findIndex (fun addr => jsstring_eqb (_id addr) id) l = Z.of_nat i ->
  validateAddressData
    (Partial.mk (Req.street body) (Req.city body) (Req.state body)
       (Req.zipCode body) (Req.country body) (Req.label body)
       (Req.phone body)) = [] ->
  atMostOneDefault l ->
  PUT isValid session (PUT isValid session (Some l) body modified).2 body
      modified'
  = PUT isValid session (Some l) body modified.
Proof.
  intros Hs Hid Hf Hv Hi Hval Hone.
  set (F := fun l => setStep (Req.isDefault body) i
               (clearStep (Req.isDefault body) i (assignFields body i l))).
  assert (Hfirst : PUT isValid session (Some l) body modified
                   = (Success 200 "Address updated successfully" (F l),
                      Some (F l))).
  { rewrite (PUT_located isValid session (Some l) body modified l i);
      [|by rewrite Hid; apply locate_found|done].
    cbv zeta. unfold save. fold (F l).
    rewrite preSave_atMostOne by (by apply PUT_steps_atMostOne).
    by rewrite transformAddresses_id. }
  rewrite Hfirst. simpl.
  assert (Hids : _id <$> F l = _id <$> l).
  { rewrite <- (eraseDefault_ids (F l)), <- (eraseDefault_ids l).
    unfold F. rewrite eraseDefault_changeDefault, eraseDefault_assignFields.
    rewrite assignFields_alter. apply list_eq. intros j.
    rewrite !list_lookup_fmap.
    destruct (decide (j = i)) as [->|Hne].
    - rewrite list_lookup_alter_eq.
      destruct (eraseDefault l !! i) as [a|]; [|done]. simpl.
      by rewrite updateFields_id.
    - by rewrite list_lookup_alter_ne. }
  rewrite (PUT_located isValid session (Some (F l)) body modified' (F l) i);
    [|rewrite Hid; apply locate_found; try done;
      by rewrite (findIndex_ids id (F l) l Hids)|done].
  cbv zeta. unfold save.
  pose proof (PUT_steps_idem body i l) as Hidem. cbv zeta in Hidem.
  unfold F. rewrite Hidem.
  rewrite preSave_atMostOne by (by apply PUT_steps_atMostOne).
  by rewrite transformAddresses_id.
Qed.

Lemma eraseDefault_pushAddress new l :
  eraseDefault (pushAddress new l) = eraseDefault l ++ [set_isDefault false new].
Proof.
  unfold pushAddress, push, eraseDefault. rewrite fmap_app. f_equal.
  - destruct (isDefault new && nonEmpty l); [|done]. apply eraseDefault_clear.
  - simpl. destruct (_ =? 0)%nat; [|done]. by rewrite erase_set.
Qed.

(** X6. A successful addition appends one address, built from the trimmed
    fields of the body and the defaults for country, label and phone, and
    returns every former address in its place, changed at most in its
    default flag. *)
Theorem POST_appends_one session l body newId modified s c st z :
  noSession session = false ->
  Req.street body = Some s -> Req.city body = Some c ->
  Req.state body = Some st -> Req.zipCode body = Some z ->
  validateAddressData
    (Partial.mk (Some s) (Some c) (Some st) (Some z)
       (Some (default (js "Bangladesh") (Req.country body)))
       (Some (default (js "home") (Req.label body))) None) = [] ->
  exists l',
    POST session (Some l) body newId modified
    = (Success 201 "Address added successfully" l', Some l') /\
    length l' = S (length l) /\
    eraseDefault l' =
      eraseDefault l ++
      [mkAddress newId (trim s) (trim c) (trim st) (trim z)
         (trim (default (js "Bangladesh") (Req.country body))) false
         (default (js "home") (Req.label body))
         (Some (trim (default (js "") (Req.phone body))))].
Proof.
  intros Hs H1 H2 H3 H4 Hval.
  rewrite (POST_accepted session l body newId modified s c st z) by done.
  cbv zeta. rewrite transformAddresses_id. eexists. split; [done|].
  unfold save.
  assert (forall new, eraseDefault (preSave modified (pushAddress new l))
                      = eraseDefault l ++ [set_isDefault false new]) as Herase.
  { intros new. by rewrite eraseDefault_preSave, eraseDefault_pushAddress. }
  split; [|apply Herase].
  match goal with |- length (preSave _ (pushAddress ?n _)) = _ =>
    specialize (Herase n) end.
  apply (f_equal length) in Herase. unfold eraseDefault in Herase.
  rewrite length_app, !length_fmap in Herase. simpl in Herase. lia.
Qed.

Lemma findIndex_app_fresh {A} (p : A -> bool) l x :
  (forall a, a ∈ l -> p a = false) -> p x = true ->
  findIndex p (l ++ [x]) = Z.of_nat (length l).
Proof.
  intros Hl Hx. apply findIndex_Some. exists x. split; [|split; [done|]].
  - rewrite lookup_app_r by lia. by rewrite Nat.sub_diag.
  - intros j b Hj Hb. rewrite lookup_app_l in Hb by done.
    apply Hl. by apply list_elem_of_lookup_2 in Hb.
Qed.

(** X8. Adding an address without asking for the default and then
    removing it restores the list: on a list with at most one default
    address and a fresh identifier, the document stored after the two
    requests is the one stored before them. *)
Theorem POST_then_DELETE_restores
    session l body newId modified modified' s c st z :
  noSession session = false ->
  Req.street body = Some s -> Req.city body = Some c ->
  Req.state body = Some st -> Req.zipCode body = Some z ->
  validateAddressData
    (Partial.mk (Some s) (Some c) (Some st) (Some z)
       (Some (default (js "Bangladesh") (Req.country body)))
       (Some (default (js "home") (Req.label body))) None) = [] ->
  default false (Req.isDefault body) = false ->
  atMostOneDefault l ->
  (forall a, a ∈ l -> _id a <> newId) ->
  falsy newId = false -> isValid newId = true ->
  (DELETE isValid session (POST session (Some l) body newId modified).2
          (Some newId) modified').2
  = Some l.
Proof.
  intros Hs H1 H2 H3 H4 Hval Hd Hone Hfresh Hf Hv.
  rewrite (POST_accepted session l body newId modified s c st z) by done.
  cbv zeta. rewrite Hd. simpl.
  set (new := mkAddress newId (trim s) (trim c) (trim st) (trim z)
                (trim (default (js "Bangladesh") (Req.country body))) false
                (default (js "home") (Req.label body))
                (Some (trim (default (js "") (Req.phone body))))).
  set (new' := if (length l =? 0)%nat then set_isDefault true new else new).
  assert (Hpush : pushAddress new l = l ++ [new']) by done.
  rewrite Hpush.
  assert (Hnew : isDefault new' && nonEmpty l = false).
  { unfold new'. destruct l; [by rewrite andb_false_r | done]. }
  assert (Hone' : atMostOneDefault (l ++ [new'])).
  { unfold atMostOneDefault in *. rewrite countDefault_app, countDefault_cons.
    change (countDefault []) with 0%nat. unfold new'.
    destruct l; simpl in *; [cbn; lia|lia]. }
  unfold save. rewrite (preSave_atMostOne modified _ Hone').
  assert (Hidx : findIndex (fun addr => jsstring_eqb (_id addr) newId)
                   (l ++ [new']) = Z.of_nat (length l)).
  { apply findIndex_app_fresh.
    - intros a Ha. unfold jsstring_eqb. apply bool_decide_eq_false.
      by apply Hfresh.
    - unfold jsstring_eqb. apply bool_decide_eq_true.
      unfold new'. by destruct (_ =? 0)%nat. }
  rewrite (DELETE_located isValid session (Some (l ++ [new'])) (Some newId)
             modified' (l ++ [new']) (length l) new');
    [|by apply locate_found
     |by rewrite lookup_app_r, Nat.sub_diag by lia].
  cbv zeta. simpl. unfold spliceAddress, splice1.
  assert (delete (length l) (l ++ [new']) = l) as ->.
  { by rewrite delete_middle, app_nil_r. }
  rewrite Hnew. unfold save. by rewrite (preSave_atMostOne modified' l Hone).
Qed.

End Touch.

(** ** The pre-save pass on any list *)

(** X9. Whatever the list, the pre-save pass on a modified list leaves at
    most one default address, none if there was none, and changes nothing
    but default flags; on a list that is not marked as modified it does
    nothing at all. *)
Theorem preSave_leaves_at_most_one l :
  countDefault (preSave true l) = Nat.min 1 (countDefault l) /\
  eraseDefault (preSave true l) = eraseDefault l /\
  length (preSave true l) = length l /\
  preSave false l = l.
Proof.
  split; [|split; [apply eraseDefault_preSave|split; [|done]]].
  - destruct (le_lt_dec (countDefault l) 1) as [Hle|Hgt].
    + rewrite preSave_atMostOne by done. lia.
    + destruct (findIndex_cases isDefault l) as [Hnone | (f & Hf & Hlen)].
      * rewrite findIndex_None in Hnone.
        rewrite (countDefault_zero_intro l Hnone) in Hgt. lia.
      * rewrite (preSave_many l f Hgt Hf), countDefault_onlyDefault.
        case_bool_decide; lia.
  - pose proof (eraseDefault_preSave true l) as H.
    apply (f_equal length) in H. unfold eraseDefault in H.
    by rewrite !length_fmap in H.
Qed.

(** ** The properties of the address book on given requests *)


Lemma DELETE_removes_only_target_witness :
  exists l',
    DELETE objectIdIsValid customer (Some [homeAddress; workAddress])
           (Some idWork) true
    = (Success 200 "Address deleted successfully" l', Some l') /\
    S (length l') = length [homeAddress; workAddress] /\
    eraseDefault l' = delete 1%nat (eraseDefault [homeAddress; workAddress]).
Proof.
  exact (DELETE_removes_only_target objectIdIsValid customer
           [homeAddress; workAddress] idWork 1%nat true
           eq_refl eq_refl eq_refl eq_refl).
Defined.

Lemma DELETE_twice_NotFound_witness :
  (DELETE objectIdIsValid customer
     (DELETE objectIdIsValid customer (Some [homeAddress; workAddress])
             (Some idWork) true).2 (Some idWork) true
   = (Failure 404 "Address not found",
      (DELETE objectIdIsValid customer (Some [homeAddress; workAddress])
              (Some idWork) true).2)) /\
  (PUT objectIdIsValid customer
     (DELETE objectIdIsValid customer (Some [homeAddress; workAddress])
             (Some idWork) true).2 streetBody true
   = (Failure 404 "Address not found",
      (DELETE objectIdIsValid customer (Some [homeAddress; workAddress])
              (Some idWork) true).2)).
Proof.
  apply (DELETE_twice_NotFound objectIdIsValid customer
           [homeAddress; workAddress] idWork 1%nat streetBody true true);
    try reflexivity.
  apply (bool_decide_unpack _). vm_compute. exact I.
Defined.

Lemma POST_appends_one_witness :
  exists l',
    POST customer (Some [homeAddress]) (newBody "9000") idNew true
    = (Success 201 "Address added successfully" l', Some l') /\
    length l' = S (length [homeAddress]) /\
    eraseDefault l' =
      eraseDefault [homeAddress] ++
      [mkAddress idNew (trim (js " 3 Hill Road ")) (trim (js "Khulna"))
         (trim (js "Khulna")) (trim (js "9000"))
         (trim (default (js "Bangladesh") (Req.country (newBody "9000"))))
         false
         (default (js "home") (Req.label (newBody "9000")))
         (Some (trim (default (js "") (Req.phone (newBody "9000")))))].
Proof.
  exact (POST_appends_one customer [homeAddress] (newBody "9000") idNew true
           (js " 3 Hill Road ") (js "Khulna") (js "Khulna") (js "9000")
           eq_refl eq_refl eq_refl eq_refl eq_refl eq_refl).
Defined.

Lemma PUT_idempotent_witness :
  PUT objectIdIsValid customer
      (PUT objectIdIsValid customer (Some [homeAddress; workAddress])
           streetBody true).2 streetBody true
  = PUT objectIdIsValid customer (Some [homeAddress; workAddress])
        streetBody true.
Proof.
  apply (PUT_idempotent objectIdIsValid customer [homeAddress; workAddress]
           streetBody idWork 1%nat true true); try reflexivity.
  unfold atMostOneDefault. vm_compute. lia.
Defined.

Lemma POST_then_DELETE_restores_witness :
  (DELETE objectIdIsValid customer
     (POST customer (Some [homeAddress]) (newBody "9000") idNew true).2
     (Some idNew) true).2
  = Some [homeAddress].
Proof.
  apply (POST_then_DELETE_restores objectIdIsValid customer [homeAddress]
           (newBody "9000") idNew true true
           (js " 3 Hill Road ") (js "Khulna") (js "Khulna") (js "9000"));
    try reflexivity.
  - unfold atMostOneDefault. vm_compute. lia.
  - intros a Ha. apply list_elem_of_singleton in Ha. subst a.
    vm_compute. discriminate.
Defined.

(** ** The email check *)

Lemma plus_spec p k s :
  plus p k s = true <->
  exists a r, s = a ++ r /\ a <> [] /\ forallb p a = true /\ k r = true.
Proof.
  induction s as [|c t IH]; simpl.
  - split; [done|]. intros (a & r & Hs & Ha & _).
    symmetry in Hs. by apply app_eq_nil in Hs as [-> _].
  - rewrite andb_true_iff, orb_true_iff, IH. split.
    + intros [Hc [(a & r & -> & Ha & Hp & Hk) | Hk]].
      * exists (c :: a), r. simpl. by rewrite Hc, Hp.
      * exists [c], t. simpl. by rewrite Hc.
    + intros (a & r & Hs & Ha & Hp & Hk).
      destruct a as [|d a]; [done|]. simpl in *.
      injection Hs as <- ->. apply andb_true_iff in Hp as [Hc Hp].
      split; [done|]. destruct a as [|e a]; [by right|].
      left. exists (e :: a), r. by repeat split.
Qed.

Lemma lit_spec c k s :
  lit c k s = true <-> exists r, s = c :: r /\ k r = true.
Proof.
  destruct s as [|d r]; simpl.
  - split; [done | by intros (? & ? & _)].
  - rewrite andb_true_iff, N.eqb_eq. split.
    + intros [-> Hk]. by exists r.
    + by intros (r' & [= -> ->] & Hk).
Qed.

(** X10. The email check accepts exactly the strings made of a local
    part, an at sign, and a domain with a dot inside it: three non-empty
    runs of characters that are neither white space nor an at sign,
    separated by one at sign and one dot. *)
Theorem emailRegex_spec s :
  emailRegex s = true <->
  exists a b c,
    s = a ++ [0x40%N] ++ b ++ [0x2E%N] ++ c /\
    a <> [] /\ b <> [] /\ c <> [] /\
    forallb notSpaceAt a = true /\ forallb notSpaceAt b = true /\
    forallb notSpaceAt c = true.
Proof.
  unfold emailRegex. rewrite plus_spec. split.
  - intros (a & r & -> & Ha & Hpa & Hk).
    apply lit_spec in Hk as (r1 & -> & Hk).
    apply plus_spec in Hk as (b & r2 & -> & Hb & Hpb & Hk).
    apply lit_spec in Hk as (r3 & -> & Hk).
    apply plus_spec in Hk as (c & r4 & -> & Hc & Hpc & Hk).
    destruct r4; [|done]. exists a, b, c. by rewrite app_nil_r.
  - intros (a & b & c & -> & Ha & Hb & Hc & Hpa & Hpb & Hpc).
    exists a, ([0x40%N] ++ b ++ [0x2E%N] ++ c). repeat split; try done.
    apply lit_spec. eexists. split; [done|].
    apply plus_spec. exists b, ([0x2E%N] ++ c). repeat split; try done.
    apply lit_spec. eexists. split; [done|].
    apply plus_spec. exists c, []. by rewrite app_nil_r.
Qed.

Example emailRegex_examples :
  emailRegex (js "alice@example.com") = true /\
  emailRegex (js "a@b.c.d") = true /\
  emailRegex (js "alice@example") = false /\
  emailRegex (js "alice@@example.com") = false /\
  emailRegex (js "alice smith@example.com") = false /\
  emailRegex (js "@example.com") = false /\
  emailRegex (js "alice@example.") = false.
Proof. repeat split. Qed.

(** An accepted email has no white space at either end. *)
Lemma emailRegex_trim s : emailRegex s = true -> trim s = s.
Proof.
  intros H. apply emailRegex_spec in H
    as (a & b & c & -> & Ha & Hb & Hc & Hpa & Hpb & Hpc).
  unfold trim.
  assert (Hhead : match a ++ [64%N] ++ b ++ [46%N] ++ c with
                  | [] => True | x :: _ => isWhiteSpace x = false end).
  { destruct a as [|x a]; [done|]. simpl in *.
    apply andb_true_iff in Hpa as [Hx _]. unfold notSpaceAt in Hx.
    apply andb_true_iff in Hx as [Hx _]. by apply negb_true_iff in Hx. }
  rewrite (trimStart_fix _ Hhead). apply trimEnd_fix.
  rewrite !rev_app_distr.
  destruct (rev c) as [|x rc] eqn:Hrc.
  - apply (f_equal (@rev N)) in Hrc. rewrite rev_involutive in Hrc. done.
  - simpl. assert (x ∈ c) as Hx.
    { apply list_elem_of_In, in_rev. rewrite Hrc. by left. }
    rewrite forallb_forall in Hpc. apply list_elem_of_In in Hx.
    specialize (Hpc x Hx). unfold notSpaceAt in Hpc.
    apply andb_true_iff in Hpc as [Hpc _]. by apply negb_true_iff in Hpc.
Qed.

(** ** The user route *)

Lemma includes_validRoles r :
  includes validRoles r = true ->
  r = js "user" \/ r = js "admin" \/ r = js "moderator".
Proof.
  unfold includes, validRoles. cbn [existsb]. unfold jsstring_eqb.
  rewrite !orb_true_iff, !bool_decide_eq_true. intuition discriminate.
Qed.

Lemma NoDup_insert_fresh {A} (l : list A) i x :
  NoDup l -> (forall j, j <> i -> l !! j <> Some x) -> NoDup (<[i := x]> l).
Proof.
  intros Hnd Hfresh. apply NoDup_alt. intros j k y Hj Hk.
  rewrite NoDup_alt in Hnd.
  destruct (decide (j = i)) as [->|Hji], (decide (k = i)) as [->|Hki];
    [done| | |].
  - rewrite list_lookup_insert_ne in Hk by done.
    apply list_lookup_insert_Some in Hj as [(_ & <- & _) | [? _]]; [|done].
    by destruct (Hfresh k Hki).
  - rewrite list_lookup_insert_ne in Hj by done.
    apply list_lookup_insert_Some in Hk as [(_ & <- & _) | [? _]]; [|done].
    by destruct (Hfresh j Hji).
  - rewrite list_lookup_insert_ne in Hj, Hk by done. by eapply Hnd.
Qed.

Section UserProperties.

Variable cast : jsstring -> option jsstring.
Variable toLowerCase : jsstring -> jsstring.
Variable hash : jsstring -> jsstring.

(** X11. No request can give a user a role other than user and admin:
    the route refuses what is not in its own list (user, admin, moderator),
    the schema refuses what is not in its enumeration (user, admin,
    customer), and so a body with any other non-empty role, the default
    role customer included, is answered with an error and changes no
    user. *)
Theorem PUT_user_role_refused users id body r :
  UserBody.role body = Some r -> falsy r = false ->
  r <> js "user" -> r <> js "admin" ->
  exists s e,
    PUT_user cast toLowerCase hash users id body = (UserError s e, users).
Proof.
  intros Hr Hf Hu Ha. unfold PUT_user, PUT_user_try. rewrite Hr.
  destruct (cast id) as [oid|]; [|by eauto].
  destruct (match UserBody.name body with
            | Some n => blank n | None => true end); [by eauto|].
  destruct (match UserBody.email body with
            | Some e => blank e | None => true end); [by eauto|].
  destruct (negb (emailRegex _)); [by eauto|].
  change (default [] (Some r)) with r. cbn [notStr]. rewrite Hf.
  cbn [negb andb].
  destruct (includes validRoles r) eqn:Hin; cbn [negb]; [|by eauto].
  destruct (existsb _ users); [by eauto|].
  destruct (negb (notStr (UserBody.password body)) && _); [by eauto|].
  apply includes_validRoles in Hin as [? | [? | ->]]; [done..|].
  simpl. eauto.
Qed.

(** X12. A password of fewer than six characters is never stored: a body
    with a non-empty password shorter than six is answered with an error and
    changes no user. *)
Theorem PUT_user_short_password_refused users id body p :
  UserBody.password body = Some p -> falsy p = false ->
  (length p < 6)%nat ->
  exists s e,
    PUT_user cast toLowerCase hash users id body = (UserError s e, users).
Proof.
  intros Hp Hf Hlen. unfold PUT_user, PUT_user_try. rewrite Hp.
  destruct (cast id) as [oid|]; [|by eauto].
  destruct (match UserBody.name body with
            | Some n => blank n | None => true end); [by eauto|].
  destruct (match UserBody.email body with
            | Some e => blank e | None => true end); [by eauto|].
  destruct (negb (emailRegex _)); [by eauto|].
  destruct (negb (notStr (UserBody.role body)) && _); [by eauto|].
  destruct (existsb _ users); [by eauto|].
  change (default [] (Some p)) with p. cbn [notStr]. rewrite Hf.
  cbn [negb andb].
  apply Nat.ltb_lt in Hlen. rewrite Hlen. eauto.
Qed.

Hypothesis toLowerCase_idempotent :
  forall s, toLowerCase (toLowerCase s) = toLowerCase s.

(** X13. The update of a user keeps the emails apart: when lower-casing
    is idempotent, and the stored users have different identifiers and
    different emails, they still have different emails after any request to
    update one of them. *)
Theorem PUT_user_keeps_emails_unique users id body :
  NoDup (UserDoc._id <$> users) ->
  NoDup (UserDoc.email <$> users) ->
  NoDup (UserDoc.email <$>
           (PUT_user cast toLowerCase hash users id body).2).
Proof.
  intros Hids Hemails. unfold PUT_user, PUT_user_try.
  destruct (cast id) as [oid|]; [|done].
  destruct (match UserBody.name body with
            | Some n => blank n | None => true end); [done|].
  destruct (match UserBody.email body with
            | Some e => blank e | None => true end); [done|].
  set (lower := toLowerCase (default [] (UserBody.email body))).
  destruct (emailRegex lower) eqn:Hre; cbn [negb]; [|by simpl].
  destruct (negb (notStr (UserBody.role body)) && _); [by simpl|].
  destruct (existsb _ users) eqn:Hex; [by simpl|].
  destruct (negb (notStr (UserBody.password body)) && _); [by simpl|].
  destruct (match (if notStr (UserBody.role body) then None
                   else UserBody.role body) with
            | Some r => negb (includes schemaRoles r)
            | None => false end); [by simpl|].
  destruct (findIndex_cases (fun u => jsstring_eqb (UserDoc._id u) oid) users)
    as [Hnone | (i & Hi & Hlen)]; unfold findUser; rewrite ?Hnone, ?Hi;
    [done|].
  destruct (Z.eqb_spec (Z.of_nat i) (-1)); [lia|]. rewrite Nat2Z.id.
  destruct (users !! i) as [u|] eqn:Hu; [|done]. simpl.
  rewrite list_fmap_insert. simpl.
  rewrite (emailRegex_trim lower Hre). unfold lower at 1.
  rewrite toLowerCase_idempotent. fold lower.
  apply NoDup_insert_fresh; [done|].
  intros j Hji Hj. rewrite list_lookup_fmap in Hj.
  destruct (users !! j) as [v|] eqn:Hv; [|done]. simpl in Hj.
  injection Hj as Hj.
  (* the check for an existing user *)
  assert (existsb (fun u => jsstring_eqb (UserDoc.email u) lower
                            && negb (jsstring_eqb (UserDoc._id u) oid))
                  users = true) as Habs; [|congruence].
  apply existsb_exists. exists v. split.
  - apply list_elem_of_In. by apply list_elem_of_lookup_2 in Hv.
  - unfold jsstring_eqb. rewrite bool_decide_eq_true_2 by done. simpl.
    apply negb_true_iff, bool_decide_eq_false. intros Hvid.
    apply findIndex_Some in Hi as (u0 & Hu0 & Hid0 & _).
    unfold jsstring_eqb in Hid0. apply bool_decide_eq_true in Hid0.
    assert ((UserDoc._id <$> users) !! j = Some oid) as Hj1
      by (by rewrite list_lookup_fmap, Hv; simpl; rewrite Hvid).
    assert ((UserDoc._id <$> users) !! i = Some oid) as Hi1
      by (by rewrite list_lookup_fmap, Hu0; simpl; rewrite Hid0).
    by pose proof (NoDup_lookup _ _ _ _ Hids Hj1 Hi1).
Qed.

End UserProperties.

Lemma asciiLower_idempotent s : asciiLower (asciiLower s) = asciiLower s.
Proof.
  unfold asciiLower. rewrite <- list_fmap_compose.
  apply list_fmap_ext. intros _ c _. simpl.
  destruct ((65 <=? c) && (c <=? 90))%N eqn:E; [|by rewrite E].
  apply andb_true_iff in E as [E1 E2].
  apply N.leb_le in E1, E2.
  assert ((c + 32 <=? 90)%N = false) as -> by (apply N.leb_gt; lia).
  by rewrite andb_false_r.
Qed.

Lemma PUT_user_role_refused_witness :
  exists s e,
    PUT_user objectIdCast asciiLower sampleHash [alice; bob] idAlice
      (roleBody "customer")
    = (UserError s e, [alice; bob]).
Proof.
  apply (PUT_user_role_refused objectIdCast asciiLower sampleHash
           [alice; bob] idAlice (roleBody "customer") (js "customer"));
    [reflexivity | reflexivity | discriminate | discriminate].
Defined.

Lemma PUT_user_short_password_refused_witness :
  exists s e,
    PUT_user objectIdCast asciiLower sampleHash [alice; bob] idAlice
      (passwordBody "12345")
    = (UserError s e, [alice; bob]).
Proof.
  apply (PUT_user_short_password_refused objectIdCast asciiLower sampleHash
           [alice; bob] idAlice (passwordBody "12345") (js "12345"));
    [reflexivity | reflexivity | simpl; lia].
Defined.

Lemma PUT_user_keeps_emails_unique_witness :
  NoDup (UserDoc.email <$>
           (PUT_user objectIdCast asciiLower sampleHash [alice; bob] idAlice
              (emailBody "Alice.Smith@Example.com")).2).
Proof.
  apply (PUT_user_keeps_emails_unique objectIdCast asciiLower sampleHash
           asciiLower_idempotent [alice; bob] idAlice
           (emailBody "Alice.Smith@Example.com")).
  - apply (bool_decide_unpack _). vm_compute. exact I.
  - apply (bool_decide_unpack _). vm_compute. exact I.
Defined.

(** The user route on given requests: the two roles that only one of the
    two lists knows, an email that another user has, under another case, and
    an accepted update. *)
Example PUT_user_examples :
  (PUT_user objectIdCast asciiLower sampleHash [alice; bob] idAlice
     (roleBody "customer")).1 = UserError 400 "Invalid role" /\
  (PUT_user objectIdCast asciiLower sampleHash [alice; bob] idAlice
     (roleBody "moderator")).1 = UserError 400 "Validation failed: role" /\
  (PUT_user objectIdCast asciiLower sampleHash [alice; bob] idAlice
     (emailBody "BOB@example.com")).1 = UserError 409 "Email already in use" /\
  PUT_user objectIdCast asciiLower sampleHash [alice; bob] idAlice
    (roleBody "admin")
  = (UserJson 200 idAlice (js "Alice") (js "alice@example.com") (js "admin"),
     [UserDoc.mk idAlice (js "Alice") (js "alice@example.com") (js "admin")
        (js "$2a$10$hashA"); bob]).
Proof. repeat split. Qed.

(** ** The catalogue *)

Lemma hasProductId_spec pid products :
  hasProductId pid products = true <-> pid ∈ productId <$> products.
Proof.
  unfold hasProductId. rewrite existsb_exists, list_elem_of_fmap. split.
  - intros (p & Hp & Heq). unfold jsstring_eqb in Heq.
    apply bool_decide_eq_true in Heq. exists p.
    by rewrite list_elem_of_In.
  - intros (p & -> & Hp). exists p. rewrite <- list_elem_of_In.
    unfold jsstring_eqb. by rewrite bool_decide_eq_true_2.
Qed.

(** X14. Creating products never gives two products the same product
    identifier: if the identifiers of the catalogue are all different, they
    still are after any request to create a product. *)
Theorem POST_product_keeps_ids_unique products body newId :
  NoDup (productId <$> products) ->
  NoDup (productId <$> (POST_product products body newId).2).
Proof.
  intros Hnd. unfold POST_product, POST_product_try.
  destruct (notStr _ || _ || _ || _ || _ || _); [done|].
  destruct (hasProductId (default [] (ProductBody.productId body)) products)
    eqn:Hhas; [done|].
  unfold create. simpl. rewrite Hhas. simpl.
  unfold push. rewrite fmap_app. apply NoDup_app. split; [done|].
  split; [|apply NoDup_singleton].
  intros pid Hin Hpid. simpl in Hpid. apply list_elem_of_singleton in Hpid.
  subst pid. apply hasProductId_spec in Hin. congruence.
Qed.

Lemma POST_product_keeps_ids_unique_witness :
  NoDup (productId <$> (POST_product [teaProduct] coffeeBody idOrder).2).
Proof.
  apply (POST_product_keeps_ids_unique [teaProduct] coffeeBody idOrder).
  apply (bool_decide_unpack _). vm_compute. exact I.
Defined.

(** X15. A product cannot be created twice: once a request has created
    a product, the same body is answered with 400 and the message that the
    product identifier exists, and the catalogue stays as the first request
    left it. *)
Theorem POST_product_twice_refused products body newId newId' p products' :
  POST_product products body newId = (ProductJson 201 p, products') ->
  POST_product products' body newId'
  = (ProductError 400 "Product ID already exists.", products').
Proof.
  unfold POST_product, POST_product_try.
  destruct (notStr _ || _ || _ || _ || _ || _) eqn:Hmissing; [done|].
  destruct (hasProductId (default [] (ProductBody.productId body)) products)
    eqn:Hhas; [done|].
  unfold create. simpl. rewrite Hhas. simpl. intros [= <- <-].
  assert (hasProductId (default [] (ProductBody.productId body))
            (push products
               (mkProduct newId (default [] (ProductBody.productId body))
                  (default [] (ProductBody.name body))
                  (default [] (ProductBody.description body))
                  (default 0%Q (ProductBody.price body))
                  (default [] (ProductBody.category body))
                  (orZero (ProductBody.rating body))
                  (orZero (ProductBody.reviews body)))) = true) as ->.
  { apply hasProductId_spec. unfold push. rewrite fmap_app.
    apply elem_of_app. right. simpl. apply list_elem_of_singleton. done. }
  done.
Qed.

Lemma POST_product_twice_refused_witness :
  POST_product (POST_product [teaProduct] coffeeBody idOrder).2 coffeeBody
    idHome
  = (ProductError 400 "Product ID already exists.",
     (POST_product [teaProduct] coffeeBody idOrder).2).
Proof.
  exact (POST_product_twice_refused [teaProduct] coffeeBody idOrder idHome
           _ _ eq_refl).
Defined.

(** ** Orders, continued *)




(** X18. A status that is not empty and is none of the six values is
    refused with 400 whatever the order and the identifier, and no order is
    changed. *)
Theorem PUT_order_invalid_status_refused isValid orders id body s now1 now2 :
  OrderBody.status body = Some s -> falsy s = false ->
  includes validStatuses s = false ->
  exists e,
    PUT_order isValid orders id body now1 now2 = (OrderError 400 e, orders).
Proof.
  intros Hs Hf Hin. unfold PUT_order, PUT_order_try. cbv zeta.
  destruct (isValid id); cbn [negb]; [|by eauto].
  rewrite Hs. change (default [] (Some s)) with s. cbn [notStr].
  rewrite Hf, Hin. cbn [negb andb]. eauto.
Qed.

Lemma PUT_order_invalid_status_refused_witness :
  exists e,
    PUT_order objectIdIsValid [confirmedOrder] idOrder
      (OrderBody.mk (Some (js "returned")) None) 5000 5001
    = (OrderError 400 e, [confirmedOrder]).
Proof.
  exact (PUT_order_invalid_status_refused objectIdIsValid [confirmedOrder]
           idOrder (OrderBody.mk (Some (js "returned")) None) (js "returned")
           5000 5001 eq_refl eq_refl eq_refl).
Defined.

(** ** The images and the features of the product forms *)

Lemma filterIndexFrom_delete {A} (l : list A) k index :
  filterIndexFrom (fun i => negb (i =? k + index)%nat) k l = delete index l.
Proof.
  revert k index. induction l as [|x r IH]; intros k index; [done|]. simpl.
  destruct index as [|index].
  - rewrite Nat.add_0_r, Nat.eqb_refl. simpl. clear IH.
    assert (forall m, (k < m)%nat ->
              filterIndexFrom (fun i => negb (i =? k)%nat) m r = r) as H.
    { induction r as [|y r IHr]; intros m Hm; [done|]. simpl.
      destruct (Nat.eqb_spec m k); [lia|]. simpl. f_equal. apply IHr. lia. }
    apply H. lia.
  - destruct (Nat.eqb_spec k (k + S index)); [lia|]. simpl. f_equal.
    replace (k + S index)%nat with (S k + index)%nat by lia. apply IH.
Qed.

Lemma filterIndex_delete {A} (l : list A) index :
  filterIndex (fun i => negb (i =? index)%nat) l = delete index l.
Proof. apply (filterIndexFrom_delete l 0 index). Qed.

(** X19. Choosing an image that exists and is not empty as the primary
    image puts it first and makes it the main image, and keeps the images
    the same up to their order; any other index leaves the form as it
    was. *)
Theorem setPrimaryImage_spec index prev selected :
  images prev !! index = Some selected -> falsy selected = false ->
  images (setPrimaryImage index prev) ≡ₚ images prev /\
  images (setPrimaryImage index prev) !! 0%nat = Some selected /\
  image (setPrimaryImage index prev) = selected /\
  images (setPrimaryImage index prev) = selected :: delete index (images prev).
Proof.
  intros Hsel Hf. unfold setPrimaryImage. rewrite Hsel, Hf. simpl.
  rewrite filterIndex_delete. repeat split; try done.
  symmetry. by apply delete_Permutation.
Qed.

Lemma setPrimaryImage_spec_witness :
  images (setPrimaryImage 2 sampleImages) ≡ₚ images sampleImages /\
  images (setPrimaryImage 2 sampleImages) !! 0%nat = Some (js "c.png") /\
  image (setPrimaryImage 2 sampleImages) = js "c.png" /\
  images (setPrimaryImage 2 sampleImages)
  = js "c.png" :: delete 2%nat (images sampleImages).
Proof.
  exact (setPrimaryImage_spec 2 sampleImages (js "c.png") eq_refl eq_refl).
Defined.

(** X20. Removing an image and choosing a primary image keep the main
    image equal to the first image of the list, and so does an upload of
    images with non-empty addresses, unless the form has no image left but
    still names a main image. *)
Theorem mainIsFirst_preserved index uploads s :
  mainIsFirst s ->
  mainIsFirst (removeImage index s) /\
  mainIsFirst (setPrimaryImage index s) /\
  (Forall (fun u => falsy u = false) uploads ->
   (images s = [] -> image s = js "") ->
   mainIsFirst (addUploads uploads s)).
Proof.
  unfold mainIsFirst. intros [Hall Hinv]. split; [|split].
  - unfold removeImage. simpl. rewrite filterIndex_delete.
    split; [by apply Forall_delete|].
    destruct index as [|index].
    + simpl. destruct (images s) as [|x [|y r]]; simpl; try done.
    + destruct (images s) as [|x r] eqn:Hs; simpl; [done|].
      intros _. apply Hinv. done.
  - unfold setPrimaryImage.
    destruct (images s !! index) as [sel|] eqn:Hsel; [|done].
    destruct (falsy sel) eqn:Hf; [done|]. simpl.
    rewrite filterIndex_delete. split; [|done].
    apply Forall_cons. split; [done | by apply Forall_delete].
  - intros Hup Hempty. unfold addUploads. simpl.
    split; [by apply Forall_app|].
    destruct (images s) as [|x r] eqn:Hs.
    + rewrite (Hempty eq_refl). simpl.
      destruct uploads as [|u us]; [done|]. simpl. intros _.
      apply Forall_cons in Hup as [Hu _]. by rewrite Hu.
    + simpl. intros _. specialize (Hinv ltac:(done)). simpl in Hinv.
      injection Hinv as ->. apply Forall_cons in Hall as [Hx _].
      by rewrite Hx.
Qed.

Lemma mainIsFirst_preserved_witness :
  mainIsFirst (removeImage 0 sampleImages) /\
  mainIsFirst (setPrimaryImage 0 sampleImages) /\
  (Forall (fun u => falsy u = false) [js "d.png"] ->
   (images sampleImages = [] -> image sampleImages = js "") ->
   mainIsFirst (addUploads [js "d.png"] sampleImages)).
Proof.
  apply (mainIsFirst_preserved 0 [js "d.png"] sampleImages).
  split; [repeat constructor | reflexivity].
Defined.

(** After the last image is removed the form still names it, and the next
    upload does not replace it. *)
Example main_image_outlives_its_removal :
  removeImage 0 (mkImages (js "a.png") [js "a.png"])
  = mkImages (js "a.png") [] /\
  addUploads [js "d.png"] (removeImage 0 (mkImages (js "a.png") [js "a.png"]))
  = mkImages (js "a.png") [js "d.png"].
Proof. split; reflexivity. Qed.

Lemma featureStep_ok st e :
  Forall featureOk st.1 -> Forall featureOk (featureStep st e).1.
Proof.
  destruct st as [features current]. simpl. intros H.
  destruct e as [text | | index]; simpl; [done| |].
  - unfold jsstring_eqb. case_bool_decide as Hb; simpl; [done|].
    unfold push. apply Forall_app. split; [done|].
    apply Forall_singleton. split; [apply trim_idempotent | done].
  - rewrite filterIndex_delete. by apply Forall_delete.
Qed.

(** X21. Whatever the user types, adds and removes, starting from the
    empty form, every feature of the list is a trimmed text that is not
    empty. *)
Theorem features_are_trimmed events :
  Forall (fun f => trim f = f /\ f <> [])
    (fold_left featureStep events ([], js "")).1.
Proof.
  change (Forall featureOk (fold_left featureStep events ([], js "")).1).
  assert (forall st, Forall featureOk st.1 ->
            Forall featureOk (fold_left featureStep events st).1) as H.
  { induction events as [|e events IH]; intros st Hst; [done|].
    simpl. apply IH. by apply featureStep_ok. }
  apply H. simpl. constructor.
Qed.

(** ** The pages of the product table *)

Lemma currentProducts_take_drop {A} (p : nat) (l : list A) :
  currentProducts (Z.of_nat (S p)) l = take 6 (drop (6 * p) l).
Proof.
  unfold currentProducts, slice, productsPerPage. cbv zeta.
  destruct (Z.ltb_spec (Z.of_nat (S p) * 6 - 6) 0); [lia|].
  destruct (Z.ltb_spec (Z.of_nat (S p) * 6) 0); [lia|].
  destruct (le_lt_dec (length l) (6 * p)) as [Hshort|Hlong].
  - rewrite (drop_ge l (6 * p)) by done.
    rewrite drop_ge by lia. by rewrite !take_nil.
  - replace (Z.to_nat (Z.min (Z.of_nat (S p) * 6 - 6) (Z.of_nat (length l))))
      with (6 * p)%nat by lia.
    destruct (le_lt_dec (length l) (6 * S p)) as [Hlast|Hmore].
    + replace (Z.min (Z.of_nat (S p) * 6) (Z.of_nat (length l)))
        with (Z.of_nat (length l)) by lia.
      rewrite !take_ge; try done; rewrite length_drop; lia.
    + f_equal. lia.
Qed.

Lemma pages_join {A} n (l : list A) :
  (length l <= 6 * n)%nat ->
  concat ((fun p => take 6 (drop (6 * p) l)) <$> seq 0 n) = l.
Proof.
  revert l. induction n as [|n IH]; intros l Hlen.
  - destruct l; [done | simpl in Hlen; lia].
  - rewrite <- cons_seq, fmap_cons, <- fmap_S_seq, <- list_fmap_compose.
    rewrite concat_cons, Nat.mul_0_r, drop_0.
    rewrite (list_fmap_ext _ (fun p => take 6 (drop (6 * p) (drop 6 l)))).
    + rewrite IH by (rewrite length_drop; lia). apply take_drop.
    + intros _ p _. unfold compose. rewrite drop_drop. do 2 f_equal. lia.
Qed.

(** X22. The pages of the table split the products: page after page,
    from the first to the last, they list every product once, in order. *)
Theorem pages_partition {A} (products : list A) :
  concat ((fun p => currentProducts (Z.of_nat p) products)
            <$> seq 1 (Z.to_nat (totalPages products)))
  = products.
Proof.
  rewrite <- fmap_S_seq, <- list_fmap_compose.
  rewrite (list_fmap_ext _ (fun p => take 6 (drop (6 * p) products))).
  - apply pages_join. unfold totalPages, productsPerPage.
    pose proof (Z.div_mod (Z.of_nat (length products) + 6 - 1) 6 ltac:(lia)).
    pose proof (Z.mod_pos_bound (Z.of_nat (length products) + 6 - 1) 6
                  ltac:(lia)).
    lia.
  - intros _ p _. unfold compose. apply currentProducts_take_drop.
Qed.

(** X23. A page between the first and the last holds at least one
    product and at most six, and the buttons to the previous and to the next
    page lead to a page between the first and the last. *)
Theorem pages_in_range {A} (products : list A) p :
  1 <= p <= totalPages products ->
  (1 <= length (currentProducts p products) <= 6)%nat /\
  1 <= previousPage p <= totalPages products /\
  1 <= nextPage (totalPages products) p <= totalPages products.
Proof.
  intros Hp. unfold previousPage, nextPage. split; [|lia].
  destruct (Z.to_nat p) as [|q] eqn:Hq; [lia|].
  replace p with (Z.of_nat (S q)) by lia.
  rewrite currentProducts_take_drop, length_take, length_drop.
  unfold totalPages, productsPerPage in Hp.
  pose proof (Z.div_mod (Z.of_nat (length products) + 6 - 1) 6 ltac:(lia)).
  pose proof (Z.mod_pos_bound (Z.of_nat (length products) + 6 - 1) 6
                ltac:(lia)).
  lia.
Qed.

Lemma pages_in_range_witness :
  (1 <= length (currentProducts 2 [1; 2; 3; 4; 5; 6; 7; 8]) <= 6)%nat /\
  1 <= previousPage 2 <= totalPages [1; 2; 3; 4; 5; 6; 7; 8] /\
  1 <= nextPage (totalPages [1; 2; 3; 4; 5; 6; 7; 8]) 2
    <= totalPages [1; 2; 3; 4; 5; 6; 7; 8].
Proof.
  apply (pages_in_range [1; 2; 3; 4; 5; 6; 7; 8] 2).
  vm_compute. split; discriminate.
Defined.

Example pages_of_eight :
  currentProducts 1 [1; 2; 3; 4; 5; 6; 7; 8] = [1; 2; 3; 4; 5; 6] /\
  currentProducts 2 [1; 2; 3; 4; 5; 6; 7; 8] = [7; 8] /\
  currentProducts 3 [1; 2; 3; 4; 5; 6; 7; 8] = [] /\
  totalPages [1; 2; 3; 4; 5; 6; 7; 8] = 2 /\
  totalPages ([] : list Z) = 0.
Proof. repeat split. Qed.

(** ** Witnesses of the invariants along requests *)

Lemma run_atMostOne_witness :
  docHolds atMostOneDefault
    (run objectIdIsValid (Some [homeAddress; workAddress]) sampleRequests).
Proof.
  apply (run_atMostOne objectIdIsValid sampleRequests
           (Some [homeAddress; workAddress])).
  simpl. unfold atMostOneDefault. vm_compute. lia.
Defined.

Lemma run_valid_without_update_witness :
  docHolds validAddresses
    (run objectIdIsValid (Some [homeAddress; workAddress]) addRemoveRequests).
Proof.
  apply (run_valid_without_update objectIdIsValid addRemoveRequests
           (Some [homeAddress; workAddress])).
  - reflexivity.
  - simpl. split; [unfold atMostOneDefault; vm_compute; lia | reflexivity].
Defined.

Lemma PUT_product_negative_price_rejected_witness :
  productKindOf
    (PUT_product objectIdIsValid [teaProduct] (js "P-100") (productBody (-5))).1
  = Some ValidationFailure /\
  (PUT_product objectIdIsValid [teaProduct] (js "P-100") (productBody (-5))).2
  = [teaProduct].
Proof.
  apply (PUT_product_negative_price_rejected objectIdIsValid [teaProduct]
           (js "P-100") (productBody (-5)) (-5)%Q).
  - reflexivity.
  - reflexivity.
Defined.

(** ** Deleting a user *)

(** X28. A deleted user is gone: when the stored users have different
    identifiers, after a successful deletion the same identifier is
    answered with 404 by [GET] and by a second [DELETE], which changes
    nothing, and every other user is still stored. *)
Theorem DELETE_user_then_not_found cast users id oid i :
  cast id = Some oid ->
  findIndex (fun u => jsstring_eqb (UserDoc._id u) oid) users = Z.of_nat i ->
  NoDup (UserDoc._id <$> users) ->
  let users' := (DELETE_user cast users id).2 in
  (DELETE_user cast users id).1 = UserDeleted 200 id /\
  users' = delete i users /\
  GET_user cast users' id = UserError 404 "User not found" /\
  DELETE_user cast users' id = (UserError 404 "User not found", users').
Proof.
  intros Hc Hi Hnd users'.
  assert (Hdel : DELETE_user cast users id
                 = (UserDeleted 200 id, delete i users)).
  { unfold DELETE_user, findUser. rewrite Hc, Hi. cbv zeta.
    destruct (Z.eqb_spec (Z.of_nat i) (-1)); [lia|]. by rewrite Nat2Z.id. }
  unfold users'. rewrite Hdel. simpl.
  assert (findIndex (fun u => jsstring_eqb (UserDoc._id u) oid)
            (delete i users) = -1) as Hnone.
  { apply findIndex_None. intros j b Hb.
    unfold jsstring_eqb. apply bool_decide_eq_false. intros Heqid.
    apply findIndex_Some in Hi as (a & Ha & Hida & _).
    unfold jsstring_eqb in Hida. apply bool_decide_eq_true in Hida.
    assert ((UserDoc._id <$> users) !! i = Some oid) as Hi'
      by (by rewrite list_lookup_fmap, Ha; simpl; rewrite Hida).
    destruct (decide (j < i)%nat) as [Hlt|Hge].
    - rewrite list_lookup_delete_lt in Hb by done.
      assert ((UserDoc._id <$> users) !! j = Some oid) as Hj
        by (by rewrite list_lookup_fmap, Hb; simpl; rewrite Heqid).
      pose proof (NoDup_lookup _ _ _ _ Hnd Hj Hi'). lia.
    - rewrite list_lookup_delete_ge in Hb by lia.
      assert ((UserDoc._id <$> users) !! S j = Some oid) as Hj
        by (by rewrite list_lookup_fmap, Hb; simpl; rewrite Heqid).
      pose proof (NoDup_lookup _ _ _ _ Hnd Hj Hi'). lia. }
  repeat split.
  - unfold GET_user, findUser. by rewrite Hc, Hnone.
  - unfold DELETE_user, findUser. by rewrite Hc, Hnone.
Qed.

Lemma DELETE_user_then_not_found_witness :
  (DELETE_user objectIdCast [alice; bob] idAlice).1 = UserDeleted 200 idAlice /\
  (DELETE_user objectIdCast [alice; bob] idAlice).2
  = delete 0%nat [alice; bob] /\
  GET_user objectIdCast (DELETE_user objectIdCast [alice; bob] idAlice).2
    idAlice = UserError 404 "User not found" /\
  DELETE_user objectIdCast (DELETE_user objectIdCast [alice; bob] idAlice).2
    idAlice
  = (UserError 404 "User not found",
     (DELETE_user objectIdCast [alice; bob] idAlice).2).
Proof.
  apply (DELETE_user_then_not_found objectIdCast [alice; bob] idAlice idAlice
           0%nat); try reflexivity.
  apply (bool_decide_unpack _). vm_compute. exact I.
Defined.
